(** * Idasen desk controller ([main.py]): a shallow embedding and its properties

    The script drives a sit/stand desk over a BLE GATT link.  The embedding
    follows the source top to bottom:

    - the [struct] codecs used for telemetry and command codes;
    - the unit conversions and the module-level configuration checks;
    - the GATT client, seen as an oracle that answers each request from the
      history of requests so far, and a small state-and-exception monad in
      which the coroutines are written;
    - the movement controller ([move_to] and its notification callback
      [_move_to]), driven by an explicit stream of event-loop events;
    - the top level ([run], [main]) with the process exit status;
    - the dictionary [config] as lines 51-110 build it, from the defaults,
      [config.yaml] and the command line.

    Python numbers (an [int], or a finite [float]) are represented by their
    exact rational value in [Q]; integers that the code only ever handles as
    [int] (the resend counter, decoded telemetry, exit statuses) are in [Z]. *)

From Stdlib Require Import ZArith QArith Qabs List String Lia Lqa Bool.
From Stdlib Require Import Strings.Byte Floats.SpecFloat.
Import ListNotations.

Local Open Scope Z_scope.

(* ------------------------------------------------------------------ *)
(** ** [struct.pack] / [struct.unpack] *)

Definition bytes := list byte.

Definition u8 (b : byte) : Z := Z.of_N (Byte.to_N b).

Definition byte_of_Z (z : Z) : byte :=
  match Byte.of_N (Z.to_N z) with
  | Some b => b
  | None => x00
  end.

(** [struct.pack("<H", v)]: two bytes, little endian; [struct.error] (here
    [None]) when [v] does not fit an unsigned 16-bit integer. *)
Definition pack_H (v : Z) : option bytes :=
  if (0 <=? v) && (v <=? 65535)
  then Some [byte_of_Z (Z.land v 255); byte_of_Z (Z.land (Z.shiftr v 8) 255)]
  else None.

(** Two's complement reading of a 16-bit pattern (format [h]). *)
Definition to_signed16 (raw : Z) : Z :=
  if raw <? 32768 then raw else raw - 65536.

(** [struct.unpack("<Hh", data)]: [struct.error] (here [None]) unless the
    buffer holds exactly four bytes. *)
Definition unpack_Hh (data : bytes) : option (Z * Z) :=
  match data with
  | [b0; b1; b2; b3] =>
      Some (Z.lor (u8 b0) (Z.shiftl (u8 b1) 8),
            to_signed16 (Z.lor (u8 b2) (Z.shiftl (u8 b3) 8)))
  | _ => None
  end.

(** [bytearray(struct.pack(...))] at module level: the packed bytes. *)
Definition bytearray (packed : option bytes) : bytes :=
  match packed with
  | Some b => b
  | None => []
  end.

(* ------------------------------------------------------------------ *)
(** ** Helper functions (unit conversion) *)

Definition BASE_HEIGHT : Z := 620.
Definition MAX_HEIGHT : Z := 1270.

(** Lines 20-27 on the exact value of their operand.  This is what the
    program computes where it stays within [int]s ([mmToRaw] of an [int]);
    [/] is a division of [float]s, rounded to binary64, for which see
    [rawToMM_b64] and [mmToRaw_b64] below. *)
Definition mmToRaw (mm : Q) : Q := ((mm - inject_Z BASE_HEIGHT) * 10)%Q.

Definition rawToMM (raw : Q) : Q := (raw / 10 + inject_Z BASE_HEIGHT)%Q.

Definition rawToSpeed (raw : Q) : Q := (raw / 100)%Q.

(** The same two conversions as CPython evaluates them on [float] operands:
    IEEE 754 binary64, every operation rounded to nearest-even. *)
Definition b64_prec : Z := 53.
Definition b64_emax : Z := 1024.

Definition b64_of_Z (z : Z) : spec_float :=
  binary_normalize b64_prec b64_emax z 0 false.

Definition rawToMM_b64 (raw : spec_float) : spec_float :=
  SFadd b64_prec b64_emax
    (SFdiv b64_prec b64_emax raw (b64_of_Z 10)) (b64_of_Z BASE_HEIGHT).

Definition mmToRaw_b64 (mm : spec_float) : spec_float :=
  SFmul b64_prec b64_emax
    (SFsub b64_prec b64_emax mm (b64_of_Z BASE_HEIGHT)) (b64_of_Z 10).

(* ------------------------------------------------------------------ *)
(** ** GATT characteristics and command codes *)

Inductive uuid : Type :=
| UUID_HEIGHT
| UUID_COMMAND
| UUID_REFERENCE_INPUT.

Definition COMMAND_UP : bytes := bytearray (pack_H 71).
Definition COMMAND_DOWN : bytes := bytearray (pack_H 70).
Definition COMMAND_STOP : bytes := bytearray (pack_H 255).

Definition COMMAND_REFERENCE_INPUT_STOP : bytes := bytearray (pack_H 32769).
Definition COMMAND_REFERENCE_INPUT_UP : bytes := bytearray (pack_H 32768).
Definition COMMAND_REFERENCE_INPUT_DOWN : bytes := bytearray (pack_H 32767).

(* ------------------------------------------------------------------ *)
(** ** Configuration *)

(** Comparisons and truth values of Python numbers. *)
Definition Qlt_bool (x y : Q) : bool := negb (Qle_bool y x).

Definition truthy (x : Q) : bool := negb (Qeq_bool x 0).

Definition truthy_opt (x : option Q) : bool :=
  match x with
  | Some v => truthy v
  | None => false
  end.

Definition truthy_str (x : option string) : bool :=
  match x with
  | Some s => negb (String.eqb s EmptyString)
  | None => false
  end.

(** The [config] dictionary once the defaults, [config.yaml] and the command
    line have been merged (line 110).  The key ['move_to'] is the field
    [move_to_mm]: the name [move_to] is the coroutine's. *)
Record Settings : Type := {
  mac_address : option string;
  stand_height : Q;
  sit_height : Q;
  height_tolerance : Q;
  movement_timeout : Q;
  sit : bool;
  stand : bool;
  monitor : bool;
  move_to_mm : option Q;
  scan_adapter : bool
}.

(** The dictionary after lines 124-128 have added the raw values. *)
Record Config : Type := {
  settings :> Settings;
  stand_height_raw : Q;
  sit_height_raw : Q;
  height_tolerance_raw : Q;
  move_to_raw : option Q
}.


Inductive config_error : Type :=
| MacAddressMissing         (* "Mac address must be provided" *)
| SitNotBelowStand          (* "Sit height must be less than stand height" *)
| SitBelowBase              (* "Sit height must be greater than 620" *)
| StandAboveMax.            (* "Stand height must be less than 1270" *)

(** Lines 112-122: the first failing check calls [parser.error].  The
    heights are finite numbers here; [checks] below takes the other floats
    in. *)
Definition validate (s : Settings) : option config_error :=
  if negb (truthy_str (mac_address s)) then Some MacAddressMissing
  else if Qle_bool (stand_height s) (sit_height s) then Some SitNotBelowStand
  else if Qlt_bool (sit_height s) (inject_Z BASE_HEIGHT) then Some SitBelowBase
  else if Qlt_bool (inject_Z MAX_HEIGHT) (stand_height s) then Some StandAboveMax
  else None.

(** The heights as [config.yaml] can supply them: a number is an [int] or a
    finite [float], by its exact value, or one of the floats [inf], [-inf]
    and [nan].  Python compares numbers exactly, and every comparison with
    [nan] is false. *)
Inductive number : Type :=
| Finite (q : Q)
| PlusInfinity
| MinusInfinity
| NaN.

(** [x < y]. *)
Definition number_lt (x y : number) : bool :=
  match x with
  | NaN => false
  | PlusInfinity => false
  | MinusInfinity =>
      match y with
      | Finite _ | PlusInfinity => true
      | MinusInfinity | NaN => false
      end
  | Finite p =>
      match y with
      | Finite q => Qlt_bool p q
      | PlusInfinity => true
      | MinusInfinity | NaN => false
      end
  end.

(** [x >= y]. *)
Definition number_ge (x y : number) : bool :=
  match x with
  | NaN => false
  | PlusInfinity =>
      match y with
      | NaN => false
      | _ => true
      end
  | MinusInfinity =>
      match y with
      | MinusInfinity => true
      | _ => false
      end
  | Finite p =>
      match y with
      | Finite q => Qle_bool q p
      | MinusInfinity => true
      | PlusInfinity | NaN => false
      end
  end.

(** [x > y]. *)
Definition number_gt (x y : number) : bool := number_lt y x.

(** Lines 112-122 on such heights; [validate] is these checks on finite
    heights. *)
Definition checks (mac : option string) (sitting standing : number)
  : option config_error :=
  if negb (truthy_str mac) then Some MacAddressMissing
  else if number_ge sitting standing then Some SitNotBelowStand
  else if number_lt sitting (Finite (inject_Z BASE_HEIGHT))
  then Some SitBelowBase
  else if number_gt standing (Finite (inject_Z MAX_HEIGHT))
  then Some StandAboveMax
  else None.

(** Lines 124-128, on the exact values.  On [int] heights the program
    computes the raw heights without rounding too; a product of [float]s
    (the tolerance is one) it rounds to binary64, which for a tolerance such
    as 0.3 is not the exact value.  The statements about a move take the raw
    tolerance as [config] holds it. *)
Definition derive (s : Settings) : Config := {|
  settings := s;
  stand_height_raw := mmToRaw (stand_height s);
  sit_height_raw := mmToRaw (sit_height s);
  height_tolerance_raw := (10 * height_tolerance s)%Q;
  move_to_raw :=
    if truthy_opt (move_to_mm s) then option_map mmToRaw (move_to_mm s)
    else None
|}.

(** [ArgumentParser.error] prints the usage and the message to standard
    error and terminates the process with status 2 (Python's [argparse]);
    [os._exit(n)] and a normal return of [main] give [n] and 0; an exception
    that nothing catches ends the interpreter with status 1. *)
Definition PARSER_ERROR_STATUS : Z := 2.
Definition UNCAUGHT_EXCEPTION_STATUS : Z := 1.

(* ------------------------------------------------------------------ *)
(** ** The world: globals, the requests made so far, the event loop *)

Inductive exn : Type :=
| BleakError
| StructError        (* struct.error *)
| TimeoutError       (* asyncio.TimeoutError *)
| OtherError.        (* any other subclass of Exception *)

Inductive message : Type :=
| MsgParserError (err : config_error)            (* usage and the message *)
| MsgHeightData (height speed : Z)               (* print_height_data *)
| MsgProgress (height : Z) (target : Q) (speed : Z)  (* _move_to *)
| MsgTimedOut               (* 'Timed out while waiting for desk' *)
| MsgLostConnection
| MsgScanning
| MsgDeskFound
| MsgDeskNotFound           (* 'Scanning - Desk {} Not Found' *)
| MsgFoundDevices (n : nat)
| MsgDevice (address : string)
| MsgCouldNotFindDesk       (* 'Could not find desk {}' *)
| MsgConnecting
| MsgConnectingFailed
| MsgConnected
| MsgHeight (height : Z)
| MsgFinalHeight (height : Z) (target : Q)
| MsgException (e : exn)    (* print(e) / traceback.print_exc() *)
| MsgDisconnecting
| MsgDisconnected.

(** What the process asks of the outside, in order. *)
Inductive action : Type :=
| ReadGattChar (u : uuid)
| WriteGattChar (u : uuid) (data : bytes)
| StartNotify (u : uuid)
| StopNotify (u : uuid)
| Discover
| Connect
| Disconnect
| PickleDump
| Print (m : message).

(** Coroutines handed to [asyncio.create_task]. *)
Inductive coroutine : Type :=
| CoStop
| CoMoveUp
| CoMoveDown.

Record world : Type := {
  stop_flag : bool;           (* global stop_flag *)
  count : Z;                  (* global count *)
  client_set : bool;          (* global client is not None *)
  tasks : list coroutine;     (* created tasks the loop has not run yet *)
  log : list action           (* oldest first *)
}.

Definition initial_world : world := {|
  stop_flag := false; count := 0; client_set := false; tasks := []; log := []
|}.

(** How a computation ends: a value, a Python exception, [os._exit], or
    still waiting when the supplied events are used up. *)
Inductive result (A : Type) : Type :=
| Ok (a : A)
| Raise (e : exn)
| Exit (status : Z)
| Pending.

Arguments Ok {A} a.
Arguments Raise {A} e.
Arguments Exit {A} status.
Arguments Pending {A}.

Definition M (A : Type) : Type := world -> result A * world.

Definition ret {A} (a : A) : M A := fun w => (Ok a, w).

Definition bind {A B} (c : M A) (k : A -> M B) : M B :=
  fun w =>
    match c w with
    | (Ok a, w') => k a w'
    | (Raise e, w') => (Raise e, w')
    | (Exit n, w') => (Exit n, w')
    | (Pending, w') => (Pending, w')
    end.

Notation "x <- c1 ;; c2" := (bind c1 (fun x => c2))
  (at level 61, c1 at next level, right associativity).
Notation "c1 ;; c2" := (bind c1 (fun _ => c2))
  (at level 61, right associativity).

Definition raise {A} (e : exn) : M A := fun w => (Raise e, w).
Definition os_exit {A} (status : Z) : M A := fun w => (Exit status, w).
Definition pending {A} : M A := fun w => (Pending, w).

(** [try: c  except <those e with handles e = true>: h e]. *)
Definition try_except {A} (c : M A) (handles : exn -> bool) (h : exn -> M A)
  : M A :=
  fun w =>
    match c w with
    | (Raise e, w') => if handles e then h e w' else (Raise e, w')
    | r => r
    end.

Definition record (a : action) : M unit :=
  fun w => (Ok tt, {| stop_flag := stop_flag w; count := count w;
                      client_set := client_set w; tasks := tasks w;
                      log := log w ++ [a] |}).

Definition print (m : message) : M unit := record (Print m).

Definition get_count : M Z := fun w => (Ok (count w), w).

Definition set_count (n : Z) : M unit :=
  fun w => (Ok tt, {| stop_flag := stop_flag w; count := n;
                      client_set := client_set w; tasks := tasks w;
                      log := log w |}).

Definition set_client : M unit :=
  fun w => (Ok tt, {| stop_flag := stop_flag w; count := count w;
                      client_set := true; tasks := tasks w;
                      log := log w |}).

Definition get_client_set : M bool := fun w => (Ok (client_set w), w).

(** Lines 161-167. *)
Definition asked_to_stop : M bool := fun w => (Ok (stop_flag w), w).

Definition ask_to_stop : M unit :=
  fun w => (Ok tt, {| stop_flag := true; count := count w;
                      client_set := client_set w; tasks := tasks w;
                      log := log w |}).

(** [asyncio.create_task]: the coroutine is queued; the loop runs it once
    the running callback has returned. *)
Definition create_task (c : coroutine) : M unit :=
  fun w => (Ok tt, {| stop_flag := stop_flag w; count := count w;
                      client_set := client_set w; tasks := tasks w ++ [c];
                      log := log w |}).

Definition take_tasks : M (list coroutine) :=
  fun w => (Ok (tasks w), {| stop_flag := stop_flag w; count := count w;
                             client_set := client_set w; tasks := [];
                             log := log w |}).

(** [struct.unpack("<Hh", data)] inside a coroutine or callback. *)
Definition unpack (data : bytes) : M (Z * Z) :=
  match unpack_Hh data with
  | Some hs => ret hs
  | None => raise StructError
  end.

(* ------------------------------------------------------------------ *)
(** ** The outside: platform, GATT client, event loop *)

Inductive os_name : Type :=
| posix
| nt
| java.

Definition IS_LINUX (os : os_name) : bool :=
  match os with posix => true | _ => false end.

Definition IS_WINDOWS (os : os_name) : bool :=
  match os with nt => true | _ => false end.

(** A [BleakClient] as the script sees it: each request is answered, with an
    exception or without, in a way that may depend on every request made
    before it. *)
Record BleakClient : Type := {
  answers : list action -> action -> option exn;
  reads : list action -> uuid -> exn + bytes
}.

Record BLEDevice : Type := { address : string }.

(** What the event loop hands to the script while a coroutine waits. *)
Inductive event : Type :=
| Notification (data : bytes)   (* the Height characteristic notifies *)
| Tick                          (* an [asyncio.sleep(0.1)] has elapsed *)
| Disconnected                  (* the transport reports the disconnection *)
| Signal                        (* SIGINT or SIGTERM is delivered *)
| Deadline.                     (* the timeout of [asyncio.wait_for] expires *)

Definition is_Deadline (ev : event) : bool :=
  match ev with Deadline => true | _ => false end.

Inductive direction : Type :=
| UP
| DOWN.

Inductive scanned : Type :=
| Devices (devices : list BLEDevice)
| Device (device : BLEDevice)
| NoDevice.

Definition is_TimeoutError (e : exn) : bool :=
  match e with TimeoutError => true | _ => false end.

Definition is_BleakError (e : exn) : bool :=
  match e with BleakError => true | _ => false end.

(** An awaited request, in two halves: it is sent (and logged), and later its
    answer is received.  [asyncio.gather] sends the first request of each of
    its coroutines before any answer arrives. *)
Definition send (client : BleakClient) (a : action) : M (option exn) :=
  fun w => (record a ;; ret (answers client (log w) a)) w.

Definition await (answer : option exn) : M unit :=
  match answer with
  | None => ret tt
  | Some e => raise e
  end.

Definition call (client : BleakClient) (a : action) : M unit :=
  answer <- send client a ;; await answer.

(** An exception that escapes a notification callback or a created task
    reaches no coroutine of the script: the loop reports it and goes on. *)
Definition detached (c : M unit) : M unit :=
  fun w =>
    match c w with
    | (Raise _, w') => (Ok tt, w')
    | r => r
    end.

(* ------------------------------------------------------------------ *)
(** ** Main program *)

Section Script.

Variable os : os_name.
Variable config : Config.
Variable client : BleakClient.

Definition read_gatt_char (u : uuid) : M bytes :=
  fun w =>
    (record (ReadGattChar u) ;;
     match reads client (log w) u with
     | inl e => raise e
     | inr data => ret data
     end) w.

Definition write_gatt_char (u : uuid) (data : bytes) : M unit :=
  call client (WriteGattChar u data).

Definition start_notify (u : uuid) : M unit := call client (StartNotify u).

Definition stop_notify (u : uuid) : M unit := call client (StopNotify u).

(** Lines 136-138.  The [sender] argument of a notification callback is
    used by neither callback and is left out. *)
Definition print_height_data (data : bytes) : M unit :=
  hs <- unpack data ;;
  let '(height, speed) := hs in
  print (MsgHeightData height speed).

(** Lines 140-143. *)
Definition has_reached_target (height target : Q) : bool :=
  Qle_bool (Qabs (height - target)) (height_tolerance_raw config).

(** Lines 145-149. *)
Definition move_up : M unit := write_gatt_char UUID_COMMAND COMMAND_UP.

Definition move_down : M unit := write_gatt_char UUID_COMMAND COMMAND_DOWN.

(** Lines 151-157. *)
Definition stop : M unit :=
  write_gatt_char UUID_COMMAND COMMAND_STOP ;;
  if IS_LINUX os
  then write_gatt_char UUID_REFERENCE_INPUT COMMAND_REFERENCE_INPUT_STOP
  else ret tt.

(** Lines 306-309. *)
Definition disconnect_callback : M unit :=
  stopping <- asked_to_stop ;;
  (if negb stopping then print MsgLostConnection else ret tt) ;;
  ask_to_stop.

(** The loop runs the tasks made by [asyncio.create_task] in the order of
    their creation; nothing awaits them. *)
Definition run_coroutine (c : coroutine) : M unit :=
  match c with
  | CoStop => stop
  | CoMoveUp => move_up
  | CoMoveDown => move_down
  end.

Fixpoint run_tasks (cs : list coroutine) : M unit :=
  match cs with
  | [] => ret tt
  | c :: rest => detached (run_coroutine c) ;; run_tasks rest
  end.

(** A notification: the callback runs, then the tasks it created. *)
Definition deliver (callback : bytes -> M unit) (data : bytes) : M unit :=
  detached (callback data) ;;
  cs <- take_tasks ;;
  run_tasks cs.

(** Lines 174-177: the loop of [subscribe], entered in its sleep.  The flag
    is read again only when the sleep has elapsed; meanwhile the event loop
    serves the callbacks.  A [Signal] runs [ask_to_stop] where [main] has
    installed it as the handler (lines 346-350, Linux only); what an
    unhandled signal does elsewhere is not followed, and it is left without
    effect (see [signals_handled]).  A [Deadline]
    is the cancellation by [asyncio.wait_for], surfacing there as
    [asyncio.TimeoutError]. *)
Fixpoint sleeping (u : uuid) (callback : bytes -> M unit)
  (events : list event) : M unit :=
  match events with
  | [] => pending
  | Tick :: rest =>
      stopping <- asked_to_stop ;;
      if stopping then stop_notify u else sleeping u callback rest
  | Notification data :: rest =>
      deliver callback data ;; sleeping u callback rest
  | Disconnected :: rest =>
      disconnect_callback ;; sleeping u callback rest
  | Signal :: rest =>
      (if IS_LINUX os then ask_to_stop else ret tt) ;;
      sleeping u callback rest
  | Deadline :: rest => raise TimeoutError
  end.

(** Lines 174-177 from the first test of the flag. *)
Definition polling (u : uuid) (callback : bytes -> M unit)
  (events : list event) : M unit :=
  stopping <- asked_to_stop ;;
  if stopping then stop_notify u else sleeping u callback events.

(** Lines 170-177. *)
Definition subscribe (u : uuid) (callback : bytes -> M unit)
  (events : list event) : M unit :=
  start_notify u ;;
  polling u callback events.

(** Lines 191-218, the callback of one move; [target] and [direction] are
    the variables it closes over. *)
Definition _move_to (target : Q) (direction : direction) (data : bytes)
  : M unit :=
  hs <- unpack data ;;
  let '(height, speed) := hs in
  n <- get_count ;;
  set_count (n + 1) ;;
  print (MsgProgress height target speed) ;;
  if has_reached_target (inject_Z height) target then
    create_task CoStop ;;
    ask_to_stop
  else
    n <- get_count ;;
    match direction with
    | UP =>
        if n =? 6 then create_task CoMoveUp ;; set_count 0 else ret tt
    | DOWN =>
        if n =? 6 then create_task CoMoveDown ;; set_count 0 else ret tt
    end.

Definition move_request (d : direction) : action :=
  match d with
  | UP => WriteGattChar UUID_COMMAND COMMAND_UP
  | DOWN => WriteGattChar UUID_COMMAND COMMAND_DOWN
  end.

(** Line 229, [asyncio.gather] of [subscribe(...)] and [move_up(client)] or
    [move_down(client)]: both coroutines start, so [start_notify] and the
    first command are requested in that order before either is answered;
    then [subscribe] goes on alone.  When either request fails the gather
    raises, and what the other coroutine still does is not followed. *)
Definition gather (target : Q) (d : direction) (events : list event)
  : M unit :=
  subscribed <- send client (StartNotify UUID_HEIGHT) ;;
  moved <- send client (move_request d) ;;
  await subscribed ;;
  await moved ;;
  polling UUID_HEIGHT (_move_to target d) events.

(** Lines 179-232. *)
Definition move_to (target : Q) (events : list event) : M unit :=
  data <- read_gatt_char UUID_HEIGHT ;;
  hs <- unpack data ;;
  let '(initial_height, speed) := hs in
  let direction :=
    if Qlt_bool (inject_Z initial_height) target then UP else DOWN in
  set_count 0 ;;
  if negb (has_reached_target (inject_Z initial_height) target) then
    try_except (gather target direction events) is_TimeoutError
      (fun _ => print MsgTimedOut ;; stop_notify UUID_HEIGHT)
  else ret tt.

End Script.

(* ------------------------------------------------------------------ *)
(** ** Discovery, connection and the top level *)

Section TopLevel.

Variable os : os_name.
Variable config : Config.
Variable client : BleakClient.
(** What [pickle.load] yields from [desk.pickle]; [None] when opening or
    loading raises. *)
Variable desk_pickle : option BLEDevice.
(** The answer of [BleakScanner.discover]. *)
Variable discovered : exn + list BLEDevice.
(** The answer of writing [desk.pickle]. *)
Variable pickle_dump_answer : option exn.

Definition has_address (mac : option string) (device : BLEDevice) : bool :=
  match mac with
  | Some a => String.eqb (address device) a
  | None => false
  end.

(** Lines 234-244. *)
Definition unpickle_desk : option BLEDevice :=
  if negb (IS_WINDOWS os) then
    match desk_pickle with
    | Some desk =>
        if has_address (mac_address config) desk then Some desk else None
    | None => None
    end
  else None.

(** Lines 246-250. *)
Definition pickle_desk (desk : BLEDevice) : M unit :=
  if negb (IS_WINDOWS os)
  then record PickleDump ;; await pickle_dump_answer
  else ret tt.

(** Lines 252-264. *)
Definition scan (mac : option string) : M scanned :=
  print MsgScanning ;;
  record Discover ;;
  match discovered with
  | inl e => raise e
  | inr devices =>
      if negb (truthy_str mac) then ret (Devices devices)
      else
        match find (has_address mac) devices with
        | Some device => print MsgDeskFound ;; ret (Device device)
        | None => print MsgDeskNotFound ;; ret NoDevice
        end
  end.

(** Lines 266-276. *)
Definition connect (desk : BLEDevice) : M unit :=
  try_except (print MsgConnecting ;; call client Connect) is_BleakError
    (fun _ => print MsgConnectingFailed ;; os_exit 1).

Fixpoint print_devices (devices : list BLEDevice) : M unit :=
  match devices with
  | [] => ret tt
  | device :: rest => print (MsgDevice (address device)) ;; print_devices rest
  end.

(** Lines 316-331: the operation chosen on the command line; the value is
    the variable [target]. *)
Definition operate (events : list event) : M (option Q) :=
  if monitor config then
    subscribe os client UUID_HEIGHT print_height_data
      (filter (fun ev => negb (is_Deadline ev)) events) ;;
    ret None
  else if sit config then
    move_to os config client (sit_height_raw config) events ;;
    ret (Some (sit_height_raw config))
  else if stand config then
    move_to os config client (stand_height_raw config) events ;;
    ret (Some (stand_height_raw config))
  else if truthy_opt (move_to_mm config) then
    match move_to_raw config with
    | Some target =>
        move_to os config client target events ;; ret (Some target)
    | None => raise OtherError       (* KeyError *)
    end
  else ret None.

(** Lines 303-336: what [run] does once connected.  The one-second sleep
    before the final read asks nothing of the outside and is not logged. *)
Definition session (desk : BLEDevice) (events : list event) : M unit :=
  pickle_desk desk ;;
  print MsgConnected ;;
  data <- read_gatt_char client UUID_HEIGHT ;;
  hs <- unpack data ;;
  let '(initial_height, speed) := hs in
  print (MsgHeight initial_height) ;;
  target <- operate events ;;
  match target with
  | Some t =>
      if truthy t then
        data <- read_gatt_char client UUID_HEIGHT ;;
        hs <- unpack data ;;
        let '(final_height, speed) := hs in
        print (MsgFinalHeight final_height t)
      else ret tt
  | None => ret tt
  end.

(** Lines 292-299: the pickled desk, else the scanned one.  With a mac
    address, which lines 112-113 ensure, [scan] yields one device or none. *)
Definition find_desk : M (option BLEDevice) :=
  match unpickle_desk with
  | Some desk => ret (Some desk)
  | None =>
      found <- scan (mac_address config) ;;
      match found with
      | Device desk => ret (Some desk)
      | NoDevice => ret None
      | Devices [] => ret None
      | Devices (_ :: _) => raise OtherError
      end
  end.

(** Lines 283-336, the body of the [try] of [run]. *)
Definition run_body (events : list event) : M unit :=
  if scan_adapter config then
    found <- scan None ;;
    match found with
    | Devices devices =>
        print (MsgFoundDevices (List.length devices)) ;;
        print_devices devices ;;
        os_exit 0
    | _ => raise OtherError
    end
  else
    desk <- find_desk ;;
    match desk with
    | None => print MsgCouldNotFindDesk ;; os_exit 1
    | Some desk =>
        connect desk ;;
        set_client ;;
        session desk events
    end.

(** Lines 280-340: [except BleakError] and [except Exception] both print
    and fall through. *)
Definition run (events : list event) : M unit :=
  try_except (run_body events) (fun _ => true)
    (fun e => print (MsgException e)).

(** Lines 342-362. *)
Definition main (events : list event) : M unit :=
  run events ;;
  connected <- get_client_set ;;
  if connected then
    print MsgDisconnecting ;;
    ask_to_stop ;;
    call client Disconnect ;;
    print MsgDisconnected
  else ret tt.

End TopLevel.

(** The status with which the process ends; [None] while it is still
    waiting for events. *)
Definition exit_status (r : result unit) : option Z :=
  match r with
  | Ok _ => Some 0
  | Raise _ => Some UNCAUGHT_EXCEPTION_STATUS
  | Exit status => Some status
  | Pending => None
  end.

Record Outside : Type := {
  platform : os_name;
  desk_client : BleakClient;
  pickled : option BLEDevice;
  discovery : exn + list BLEDevice;
  pickle_dump : option exn
}.

(** The script from line 112 on, run on the merged settings. *)
Definition script (out : Outside) (s : Settings) (events : list event)
  : option Z * world :=
  match validate s with
  | Some err =>
      (Some PARSER_ERROR_STATUS,
       snd (print (MsgParserError err) initial_world))
  | None =>
      let rw := main (platform out) (derive s) (desk_client out)
                  (pickled out) (discovery out) (pickle_dump out)
                  events initial_world in
      (exit_status (fst rw), snd rw)
  end.

(* ------------------------------------------------------------------ *)
(** ** The configuration dictionary *)

(** The configuration as the dictionary [config] of lines 51-110, before it
    is checked: the defaults, overwritten from [config.yaml], overwritten
    from the command line.  Keys are strings; a dictionary is the list of
    its items in insertion order, each key once. *)
Module Configuration.

Local Open Scope string_scope.

Inductive value : Type :=
| PyNone
| PyBool (b : bool)
| PyInt (z : Z)
| PyFloat (q : Q)
| PyStr (s : string).

Definition dict : Type := list (string * value).

(** [d[k]], or [None] for [KeyError]. *)
Fixpoint get (d : dict) (k : string) : option value :=
  match d with
  | [] => None
  | (k', v) :: rest => if String.eqb k' k then Some v else get rest k
  end.

(** [d[k] = v]. *)
Fixpoint setitem (d : dict) (k : string) (v : value) : dict :=
  match d with
  | [] => [(k, v)]
  | (k', v') :: rest =>
      if String.eqb k' k then (k', v) :: rest
      else (k', v') :: setitem rest k v
  end.

(** [d.update(other)]. *)
Definition update (d other : dict) : dict :=
  fold_left (fun d kv => setitem d (fst kv) (snd kv)) other d.

(** Lines 51-64. *)
Definition config : dict :=
  [("mac_address", PyNone);
   ("stand_height", PyInt (BASE_HEIGHT + 420));
   ("sit_height", PyInt (BASE_HEIGHT + 63));
   ("height_tolerance", PyFloat 2);
   ("adapter_name", PyStr "hci0");
   ("scan_timeout", PyInt 5);
   ("connection_timeout", PyInt 10);
   ("movement_timeout", PyInt 30);
   ("sit", PyBool false);
   ("stand", PyBool false);
   ("monitor", PyBool false);
   ("move_to", PyNone)].

(** What [parser.parse_args()] returns for the parser of lines 80-107: one
    attribute for each [dest]; an option that is not given is [None], a
    [store_true] flag that is not given is [False]. *)
Record Namespace : Type := {
  mac_address : option string;
  stand_height : option Z;
  sit_height : option Z;
  height_tolerance : option Q;
  adapter_name : option string;
  scan : option Z;
  connection_timeout : option Z;
  movement_timeout : option Z;
  sit : bool;
  stand : bool;
  monitor : bool;
  move_to : option Z;
  scan_adapter : bool
}.

Definition optional {A : Type} (f : A -> value) (o : option A) : value :=
  match o with
  | Some a => f a
  | None => PyNone
  end.

(** [vars(parser.parse_args())]. *)
Definition vars (ns : Namespace) : dict :=
  [("mac_address", optional PyStr (mac_address ns));
   ("stand_height", optional PyInt (stand_height ns));
   ("sit_height", optional PyInt (sit_height ns));
   ("height_tolerance", optional PyFloat (height_tolerance ns));
   ("adapter_name", optional PyStr (adapter_name ns));
   ("scan", optional PyInt (scan ns));
   ("connection_timeout", optional PyInt (connection_timeout ns));
   ("movement_timeout", optional PyInt (movement_timeout ns));
   ("sit", PyBool (sit ns));
   ("stand", PyBool (stand ns));
   ("monitor", PyBool (monitor ns));
   ("move_to", optional PyInt (move_to ns));
   ("scan_adapter", PyBool (scan_adapter ns))].

Definition is_None (v : value) : bool :=
  match v with
  | PyNone => true
  | _ => false
  end.

(** Line 109. *)
Definition args (ns : Namespace) : dict :=
  filter (fun kv => negb (is_None (snd kv))) (vars ns).

(** Lines 77 and 110, for a [config.yaml] that holds the mapping
    [config_file]. *)
Definition merged (config_file : dict) (ns : Namespace) : dict :=
  update (update config config_file) (args ns).

(** The keys that the script reads from [config] after line 110. *)
Definition keys_read : list string :=
  ["mac_address"; "sit_height"; "stand_height"; "height_tolerance";
   "move_to"; "adapter_name"; "scan_timeout"; "connection_timeout";
   "movement_timeout"; "scan_adapter"; "monitor"; "sit"; "stand"].

End Configuration.

(* ------------------------------------------------------------------ *)
(** ** Observations used in the statements *)

Definition b64_eqb (x y : spec_float) : bool :=
  match SFcompare x y with
  | Some Eq => true
  | _ => false
  end.

(** The world with further requests appended to its log. *)
Definition logged (a : list action) (w : world) : world :=
  {| stop_flag := stop_flag w; count := count w; client_set := client_set w;
     tasks := tasks w; log := log w ++ a |}.

(** The world with its stop flag set. *)
Definition stopped (w : world) : world :=
  {| stop_flag := true; count := count w; client_set := client_set w;
     tasks := tasks w; log := log w |}.

(** The world with no created task left to run. *)
Definition drained (w : world) : world :=
  {| stop_flag := stop_flag w; count := count w; client_set := client_set w;
     tasks := []; log := log w |}.

(** The world once [disconnect_callback] has run. *)
Definition after_disconnect (w : world) : world :=
  stopped (if stop_flag w then w else logged [Print MsgLostConnection] w).

(** The world when [move_to] has read the height and reset the counter. *)
Definition at_start (w : world) : world :=
  {| stop_flag := stop_flag w; count := 0; client_set := client_set w;
     tasks := tasks w; log := log w ++ [ReadGattChar UUID_HEIGHT] |}.

Definition STOP_REQUEST : action := WriteGattChar UUID_COMMAND COMMAND_STOP.

Definition REFERENCE_STOP_REQUEST : action :=
  WriteGattChar UUID_REFERENCE_INPUT COMMAND_REFERENCE_INPUT_STOP.

Definition move_task (d : direction) : coroutine :=
  match d with
  | UP => CoMoveUp
  | DOWN => CoMoveDown
  end.

(** The direction [move_to] settles on, line 185. *)
Definition first_direction (initial_height : Z) (target : Q) : direction :=
  if Qlt_bool (inject_Z initial_height) target then UP else DOWN.

(** The requests a created task makes, given the requests made before it. *)
Definition task_requests (os : os_name) (client : BleakClient)
  (history : list action) (c : coroutine) : list action :=
  match c with
  | CoMoveUp => [move_request UP]
  | CoMoveDown => [move_request DOWN]
  | CoStop =>
      match answers client history STOP_REQUEST with
      | Some _ => [STOP_REQUEST]
      | None =>
          if IS_LINUX os then [STOP_REQUEST; REFERENCE_STOP_REQUEST]
          else [STOP_REQUEST]
      end
  end.

(** Events that leave a move running: a notification that is not within
    tolerance (or is malformed), or a poll. *)
Definition quiet (config : Config) (target : Q) (ev : event) : bool :=
  match ev with
  | Notification data =>
      match unpack_Hh data with
      | Some (height, _) =>
          negb (has_reached_target config (inject_Z height) target)
      | None => true
      end
  | Tick => true
  | _ => false
  end.

(** A well-formed notification that is not within tolerance. *)
Definition far (config : Config) (target : Q) (data : bytes) : bool :=
  match unpack_Hh data with
  | Some (height, _) =>
      negb (has_reached_target config (inject_Z height) target)
  | None => false
  end.

(** Events that fall between two polls of the stop flag. *)
Definition between_polls (ev : event) : bool :=
  match ev with
  | Tick | Deadline => false
  | _ => true
  end.

(** What a move that has not converged asks or prints. *)
Definition progress (d : direction) (a : action) : Prop :=
  a = move_request d \/ exists m, a = Print m.

(** What a move may ask of the client, or print, once the first command has
    been sent. *)
Definition during_move (d : direction) (a : action) : Prop :=
  a = move_request d \/ a = STOP_REQUEST \/ a = REFERENCE_STOP_REQUEST \/
  a = StopNotify UUID_HEIGHT \/ exists m, a = Print m.

Definition is_write (a : action) : bool :=
  match a with
  | WriteGattChar _ _ => true
  | _ => false
  end.

(** The characteristic writes of a log, in order. *)
Definition commands (l : list action) : list action := filter is_write l.

(** The computation ended by returning or raising. *)
Definition ended {A : Type} (r : result A) : Prop :=
  match r with
  | Ok _ | Raise _ => True
  | _ => False
  end.

(** [keeps_stop c]: [c] never clears a stop flag that is set. *)
Definition keeps_stop {A : Type} (c : M A) : Prop :=
  forall w, stop_flag w = true -> stop_flag (snd (c w)) = true.

(** [never_exits c]: [c] does not end the process by [os._exit]. *)
Definition never_exits {A : Type} (c : M A) : Prop :=
  forall w status, fst (c w) <> Exit status.

(** The desk is found: in [desk.pickle], or else by the scan. *)
Definition desk_known (out : Outside) (s : Settings) (desk : BLEDevice)
  : Prop :=
  unpickle_desk (platform out) (derive s) (pickled out) = Some desk \/
  (unpickle_desk (platform out) (derive s) (pickled out) = None /\
   exists devices,
     discovery out = inr devices /\
     find (has_address (mac_address s)) devices = Some desk).


(** [logs_only P c]: started with no created task waiting, [c] leaves none
    waiting, and what it adds to the log satisfies [P]. *)
Definition logs_only (P : action -> Prop) {A : Type} (c : M A) : Prop :=
  forall w,
    tasks w = [] ->
    tasks (snd (c w)) = [] /\
    exists rest, log (snd (c w)) = log w ++ rest /\ Forall P rest.

(** What the script may ask of the outside on platform [os]. *)
Definition script_request (os : os_name) (a : action) : Prop :=
  match a with
  | ReadGattChar u | StartNotify u | StopNotify u => u = UUID_HEIGHT
  | WriteGattChar UUID_COMMAND data =>
      data = COMMAND_UP \/ data = COMMAND_DOWN \/ data = COMMAND_STOP
  | WriteGattChar UUID_REFERENCE_INPUT data =>
      IS_LINUX os = true /\ data = COMMAND_REFERENCE_INPUT_STOP
  | WriteGattChar UUID_HEIGHT _ => False
  | PickleDump => IS_WINDOWS os = false
  | Discover | Connect | Disconnect | Print _ => True
  end.

(** What a move asks or prints on platform [os] once its first command has
    been sent. *)
Definition move_action (os : os_name) (d : direction) (a : action) : Prop :=
  a = move_request d \/ a = STOP_REQUEST \/
  (IS_LINUX os = true /\ a = REFERENCE_STOP_REQUEST) \/
  a = StopNotify UUID_HEIGHT \/ exists m, a = Print m.

(** What monitoring may ask of the outside. *)
Definition monitor_request (a : action) : Prop :=
  match a with
  | StartNotify u | StopNotify u => u = UUID_HEIGHT
  | Print _ => True
  | _ => False
  end.

(** A notification that is not within tolerance, or is malformed. *)
Definition calm (config : Config) (target : Q) (ev : event) : bool :=
  quiet config target ev && between_polls ev.

(** The world when a move has subscribed and sent its first command. *)
Definition driving (d : direction) (w : world) : world :=
  logged [StartNotify UUID_HEIGHT; move_request d] (at_start w).

(** What [move_to] does when the deadline expires. *)
Definition on_timeout (client : BleakClient) (e : exn) : M unit :=
  print MsgTimedOut ;; stop_notify client UUID_HEIGHT.

(** A request to stop that comes from outside the move. *)
Definition interrupts (os : os_name) (ev : event) : Prop :=
  ev = Disconnected \/ (ev = Signal /\ IS_LINUX os = true).

(** Every signal that arrives finds the handler of lines 346-350, which is
    installed on Linux only.  Elsewhere the interpreter raises
    [KeyboardInterrupt] or the process is ended, which [sleeping] does not
    follow: there the runs considered are those in which no signal
    arrives. *)
Definition signals_handled (os : os_name) (events : list event) : Prop :=
  IS_LINUX os = true \/ ~ In Signal events.

(** [keeps_client c]: [c] leaves the global [client] as it found it. *)
Definition keeps_client {A : Type} (c : M A) : Prop :=
  forall w, client_set (snd (c w)) = client_set w.

(** Anything but a scan. *)
Definition not_scanning (a : action) : Prop := a <> Discover.

(** What finding the desk logs: nothing when it is read from [desk.pickle],
    else the scan. *)
Definition finding (cached : bool) : list action :=
  if cached then []
  else [Print MsgScanning; Discover; Print MsgDeskFound].

(** What caching the desk logs. *)
Definition caching (os : os_name) : list action :=
  if IS_WINDOWS os then [] else [PickleDump].

(* ------------------------------------------------------------------ *)
(** ** Sample runs *)

Definition sample_mac : string := "C2:51:9A:4D:00:01".

(** [--sit] with the default heights: the target is raw 630. *)
Definition sample_settings : Settings := {|
  mac_address := Some sample_mac;
  stand_height := inject_Z (BASE_HEIGHT + 420);
  sit_height := inject_Z (BASE_HEIGHT + 63);
  height_tolerance := 2;
  movement_timeout := 30;
  sit := true;
  stand := false;
  monitor := false;
  move_to_mm := None;
  scan_adapter := false
|}.

(** The desk at its lowest, at rest: height 0, speed 0. *)
Definition lowest : bytes := [x00; x00; x00; x00].

(** A client that accepts every request and always reads [lowest]. *)
Definition obliging_client : BleakClient := {|
  answers := fun _ _ => None;
  reads := fun _ _ => inr lowest
|}.

(** A client that refuses writes to the Reference Input characteristic. *)
Definition reference_input_refused : BleakClient := {|
  answers := fun _ a =>
    match a with
    | WriteGattChar UUID_REFERENCE_INPUT _ => Some BleakError
    | _ => None
    end;
  reads := fun _ _ => inr lowest
|}.


(** No pickled desk, and a scan that finds nothing. *)
Definition nothing_around : Outside := {|
  platform := posix;
  desk_client := obliging_client;
  pickled := None;
  discovery := inr [];
  pickle_dump := None
|}.

(** Five notifications into a resend period. *)
Definition five_counted : world := {|
  stop_flag := false; count := 5; client_set := true; tasks := []; log := []
|}.

(** Nothing on the command line. *)
Definition no_arguments : Configuration.Namespace := {|
  Configuration.mac_address := None;
  Configuration.stand_height := None;
  Configuration.sit_height := None;
  Configuration.height_tolerance := None;
  Configuration.adapter_name := None;
  Configuration.scan := None;
  Configuration.connection_timeout := None;
  Configuration.movement_timeout := None;
  Configuration.sit := false;
  Configuration.stand := false;
  Configuration.monitor := false;
  Configuration.move_to := None;
  Configuration.scan_adapter := false
|}.

(** A [config.yaml] that asks to sit and sets the scan timeout. *)
Definition sitting_file : Configuration.dict :=
  [("mac_address"%string, Configuration.PyStr sample_mac);
   ("sit"%string, Configuration.PyBool true);
   ("scan_timeout"%string, Configuration.PyInt 20)].

(** [--monitor] with the sample address. *)
Definition monitor_settings : Settings := {|
  mac_address := Some sample_mac;
  stand_height := inject_Z (BASE_HEIGHT + 420);
  sit_height := inject_Z (BASE_HEIGHT + 63);
  height_tolerance := 2;
  movement_timeout := 30;
  sit := false;
  stand := false;
  monitor := true;
  move_to_mm := None;
  scan_adapter := false
|}.

(** [--scan] with the sample address. *)
Definition scan_settings : Settings := {|
  mac_address := Some sample_mac;
  stand_height := inject_Z (BASE_HEIGHT + 420);
  sit_height := inject_Z (BASE_HEIGHT + 63);
  height_tolerance := 2;
  movement_timeout := 30;
  sit := false;
  stand := false;
  monitor := false;
  move_to_mm := None;
  scan_adapter := true
|}.

(** No command on the command line. *)
Definition idle_settings : Settings := {|
  mac_address := Some sample_mac;
  stand_height := inject_Z (BASE_HEIGHT + 420);
  sit_height := inject_Z (BASE_HEIGHT + 63);
  height_tolerance := 2;
  movement_timeout := 30;
  sit := false;
  stand := false;
  monitor := false;
  move_to_mm := None;
  scan_adapter := false
|}.

(** The desk with the sample address, and another device. *)
Definition sample_desk : BLEDevice := {| address := sample_mac |}.

Definition other_desk : BLEDevice := {| address := "00:00:00:00:00:00" |}.

(** The desk at raw height 630, the sitting height of the sample. *)
Definition seated : bytes := [x76; x02; x00; x00].

(** A client on which connecting times out. *)
Definition timing_out_client : BleakClient := {|
  answers := fun _ a =>
    match a with
    | Connect => Some TimeoutError
    | _ => None
    end;
  reads := fun _ _ => inr lowest
|}.

(** The sample desk is the second device of the scan. *)
Definition desk_around : Outside := {|
  platform := posix;
  desk_client := obliging_client;
  pickled := None;
  discovery := inr [other_desk; sample_desk];
  pickle_dump := None
|}.

(** The same, with a client on which connecting times out. *)
Definition desk_around_timing_out : Outside := {|
  platform := posix;
  desk_client := timing_out_client;
  pickled := None;
  discovery := inr [other_desk; sample_desk];
  pickle_dump := None
|}.

(** Four notifications into a resend period. *)
Definition four_counted : world := {|
  stop_flag := false; count := 4; client_set := true; tasks := []; log := []
|}.

(** The tactics below unfold the monad one layer at a time. *)
Ltac step_monad :=
  unfold bind, ret, raise, pending, os_exit, print, record, get_count,
    set_count, set_client, get_client_set, asked_to_stop, ask_to_stop,
    create_task, take_tasks, await, detached; simpl.

Ltac projections := cbn [stop_flag count client_set tasks log fst snd].

Ltac trace_ok :=
  repeat (apply Forall_cons; [unfold during_move; eauto 6 |]);
  try apply Forall_nil.

(* ================================================================== *)
(** * Properties *)

(* ------------------------------------------------------------------ *)
(** ** Codecs *)

Lemma u8_range (b : byte) : 0 <= u8 b < 256.
Proof.
  unfold u8. pose proof (Byte.to_N_bounded b). lia.
Qed.

Lemma land_shiftl_8 (a b : Z) : 0 <= a < 256 -> Z.land a (Z.shiftl b 8) = 0.
Proof.
  intros Ha. apply Z.bits_inj'. intros n Hn.
  rewrite Z.land_spec, Z.bits_0.
  destruct (Z.lt_ge_cases n 8) as [Hlow | Hhigh].
  - rewrite Z.shiftl_spec_low by assumption. apply andb_false_r.
  - destruct (Z.eq_dec a 0) as [-> | Hnz].
    + rewrite Z.bits_0. reflexivity.
    + rewrite (Z.bits_above_log2 a n); [reflexivity | lia | ].
      apply Z.log2_lt_pow2; [lia | ].
      apply Z.lt_le_trans with (2 ^ 8); [simpl; lia | ].
      apply Z.pow_le_mono_r; lia.
Qed.

Lemma lor_shiftl_8 (a b : Z) :
  0 <= a < 256 -> Z.lor a (Z.shiftl b 8) = a + 256 * b.
Proof.
  intros Ha.
  pose proof (Z.add_lor_land a (Z.shiftl b 8)) as Hsum.
  rewrite (land_shiftl_8 a b Ha) in Hsum.
  assert (Hshift : Z.shiftl b 8 = 256 * b).
  { rewrite Z.shiftl_mul_pow2 by lia. change (2 ^ 8) with 256. lia. }
  lia.
Qed.

Lemma unpack_Hh_length (data : bytes) :
  List.length data <> 4%nat -> unpack_Hh data = None.
Proof.
  destruct data as [| b0 [| b1 [| b2 [| b3 [| b4 rest]]]]]; simpl;
    intros Hlen; try reflexivity.
  contradiction Hlen. reflexivity.
Qed.

Lemma command_codes :
  pack_H 71 = Some COMMAND_UP /\
  pack_H 70 = Some COMMAND_DOWN /\
  pack_H 255 = Some COMMAND_STOP /\
  pack_H 32769 = Some COMMAND_REFERENCE_INPUT_STOP /\
  COMMAND_UP = [x47; x00] /\
  COMMAND_DOWN = [x46; x00] /\
  COMMAND_STOP = [xff; x00] /\
  COMMAND_REFERENCE_INPUT_STOP = [x01; x80].
Proof.
  repeat split; reflexivity.
Qed.

(** C6.  [struct.unpack("<Hh", data)] reads a payload of exactly four bytes
    little endian, bytes 0-1 as an unsigned and bytes 2-3 as a two's
    complement 16-bit integer; the payload 64 00 F6 FF gives height 100 and
    speed -10; every payload whose length is not 4 is refused, and the
    decoding step of the coroutines then raises [struct.error]. *)
Theorem unpack_Hh_decodes :
  (forall b0 b1 b2 b3 : byte,
      exists height speed : Z,
        unpack_Hh [b0; b1; b2; b3] = Some (height, speed) /\
        height = u8 b0 + 256 * u8 b1 /\
        0 <= height <= 65535 /\
        speed = (if u8 b2 + 256 * u8 b3 <? 32768
                 then u8 b2 + 256 * u8 b3
                 else u8 b2 + 256 * u8 b3 - 65536) /\
        -32768 <= speed <= 32767) /\
  unpack_Hh [x64; x00; xf6; xff] = Some (100, -10) /\
  (forall data : bytes,
      List.length data <> 4%nat ->
      unpack_Hh data = None /\
      forall w : world, unpack data w = (Raise StructError, w)).
Proof.
  split; [| split].
  - intros b0 b1 b2 b3.
    pose proof (u8_range b0). pose proof (u8_range b1).
    pose proof (u8_range b2). pose proof (u8_range b3).
    unfold unpack_Hh, to_signed16.
    rewrite !lor_shiftl_8 by assumption.
    eexists. eexists. split; [reflexivity |].
    split; [reflexivity |]. split; [lia |]. split; [reflexivity |].
    destruct (u8 b2 + 256 * u8 b3 <? 32768) eqn:Hsign;
      [apply Z.ltb_lt in Hsign | apply Z.ltb_ge in Hsign]; lia.
  - reflexivity.
  - intros data Hlen. pose proof (unpack_Hh_length data Hlen) as Hnone.
    split; [exact Hnone |].
    intros w. unfold unpack. rewrite Hnone. reflexivity.
Qed.

Lemma unpack_Hh_decodes_witness :
  unpack_Hh [x64; x00; xf6] = None /\
  forall w : world, unpack [x64; x00; xf6] w = (Raise StructError, w).
Proof.
  apply (proj2 (proj2 unpack_Hh_decodes)). simpl. discriminate.
Defined.

(* ------------------------------------------------------------------ *)
(** ** Unit conversion *)

(** Evaluated in binary64, as the interpreter does: a whole number of
    millimetres between the two bounds comes back exactly from its raw
    value, which [mmToRaw] computes on [int]s without rounding. *)
Lemma whole_millimetres_round_trip (mm : Z) :
  BASE_HEIGHT <= mm <= MAX_HEIGHT ->
  b64_eqb (rawToMM_b64 (b64_of_Z ((mm - BASE_HEIGHT) * 10))) (b64_of_Z mm)
  = true.
Proof.
  intros Hmm.
  assert (Hall :
    forallb
      (fun mm =>
         b64_eqb (rawToMM_b64 (b64_of_Z ((mm - BASE_HEIGHT) * 10)))
           (b64_of_Z mm))
      (map (fun k => BASE_HEIGHT + Z.of_nat k) (seq 0 651)) = true)
    by (vm_compute; reflexivity).
  rewrite forallb_forall in Hall. apply Hall.
  apply in_map_iff. exists (Z.to_nat (mm - BASE_HEIGHT)).
  unfold BASE_HEIGHT, MAX_HEIGHT in *.
  split; [lia | apply in_seq; lia].
Qed.

(** The raw value of a whole number of millimetres, a multiple of ten,
    comes back exactly too. *)
Lemma whole_millimetres_raw_round_trip (k : Z) :
  0 <= k <= MAX_HEIGHT - BASE_HEIGHT ->
  b64_eqb (mmToRaw_b64 (rawToMM_b64 (b64_of_Z (10 * k)))) (b64_of_Z (10 * k))
  = true.
Proof.
  intros Hk.
  assert (Hall :
    forallb
      (fun k =>
         b64_eqb (mmToRaw_b64 (rawToMM_b64 (b64_of_Z (10 * k))))
           (b64_of_Z (10 * k)))
      (map Z.of_nat (seq 0 651)) = true)
    by (vm_compute; reflexivity).
  rewrite forallb_forall in Hall. apply Hall.
  apply in_map_iff. exists (Z.to_nat k).
  unfold BASE_HEIGHT, MAX_HEIGHT in *.
  split; [lia | apply in_seq; lia].
Qed.

(** C7.  In exact arithmetic the two conversions are inverse to each
    other, on every millimetre value and on every raw value.  Evaluated as
    the interpreter does, where [rawToMM] divides in binary64, they are
    inverse to each other on the whole millimetres from 620 to 1270 and on
    their raw values, the multiples of ten from 0 to 6500. *)
Theorem unit_conversions_inverse :
  (forall mm : Q, rawToMM (mmToRaw mm) == mm) /\
  (forall raw : Q, mmToRaw (rawToMM raw) == raw) /\
  (forall mm : Z,
      BASE_HEIGHT <= mm <= MAX_HEIGHT ->
      b64_eqb (rawToMM_b64 (b64_of_Z ((mm - BASE_HEIGHT) * 10)))
        (b64_of_Z mm) = true) /\
  (forall k : Z,
      0 <= k <= MAX_HEIGHT - BASE_HEIGHT ->
      b64_eqb (mmToRaw_b64 (rawToMM_b64 (b64_of_Z (10 * k))))
        (b64_of_Z (10 * k)) = true).
Proof.
  split; [| split; [| split]].
  - intros x. unfold rawToMM, mmToRaw, BASE_HEIGHT. field.
  - intros x. unfold rawToMM, mmToRaw, BASE_HEIGHT. field.
  - exact whole_millimetres_round_trip.
  - exact whole_millimetres_raw_round_trip.
Qed.

(** C7 as stated fails on the raw values in between: in binary64 the raw
    value 1 comes back from [mmToRaw (rawToMM 1)] as 1.0000000000002274. *)
Lemma raw_round_trip_rounds_in_binary64 :
  SFcompare (mmToRaw_b64 (rawToMM_b64 (b64_of_Z 1))) (b64_of_Z 1) = Some Gt.
Proof.
  vm_compute. reflexivity.
Qed.

(* ------------------------------------------------------------------ *)
(** ** Convergence test *)



(* ------------------------------------------------------------------ *)
(** ** The callback and the loop, step by step *)

Lemma _move_to_not_reached config target d data height speed w :
  unpack_Hh data = Some (height, speed) ->
  has_reached_target config (inject_Z height) target = false ->
  _move_to config target d data w =
  (Ok tt,
   {| stop_flag := stop_flag w;
      count := if count w + 1 =? 6 then 0 else count w + 1;
      client_set := client_set w;
      tasks := if count w + 1 =? 6 then tasks w ++ [move_task d] else tasks w;
      log := log w ++ [Print (MsgProgress height target speed)] |}).
Proof.
  intros Hdata Hfar. unfold _move_to, unpack. rewrite Hdata.
  step_monad. rewrite Hfar.
  destruct d; simpl; destruct (count w + 1 =? 6); reflexivity.
Qed.

Lemma _move_to_reached config target d data height speed w :
  unpack_Hh data = Some (height, speed) ->
  has_reached_target config (inject_Z height) target = true ->
  _move_to config target d data w =
  (Ok tt,
   {| stop_flag := true;
      count := count w + 1;
      client_set := client_set w;
      tasks := tasks w ++ [CoStop];
      log := log w ++ [Print (MsgProgress height target speed)] |}).
Proof.
  intros Hdata Hnear. unfold _move_to, unpack. rewrite Hdata.
  step_monad. rewrite Hnear. simpl. reflexivity.
Qed.

Lemma _move_to_malformed config target d data w :
  unpack_Hh data = None ->
  _move_to config target d data w = (Raise StructError, w).
Proof.
  intros Hdata. unfold _move_to, unpack. rewrite Hdata. reflexivity.
Qed.

Lemma call_spec client a w :
  call client a w =
  (match answers client (log w) a with Some e => Raise e | None => Ok tt end,
   logged [a] w).
Proof.
  unfold call, send, logged. step_monad.
  destruct (answers client (log w) a); reflexivity.
Qed.

Lemma logged_logged a b w : logged b (logged a w) = logged (a ++ b) w.
Proof.
  unfold logged; simpl. rewrite app_assoc. reflexivity.
Qed.

Lemma stop_spec (os : os_name) (client : BleakClient) (w : world) :
  stop os client w =
  match answers client (log w) STOP_REQUEST with
  | Some e => (Raise e, logged [STOP_REQUEST] w)
  | None =>
      if IS_LINUX os then
        (match answers client (log w ++ [STOP_REQUEST])
                 REFERENCE_STOP_REQUEST with
         | Some e => Raise e
         | None => Ok tt
         end, logged [STOP_REQUEST; REFERENCE_STOP_REQUEST] w)
      else (Ok tt, logged [STOP_REQUEST] w)
  end.
Proof.
  unfold stop, write_gatt_char, bind. rewrite call_spec.
  fold STOP_REQUEST.
  destruct (answers client (log w) STOP_REQUEST); [reflexivity |].
  destruct (IS_LINUX os); [| reflexivity].
  rewrite call_spec, logged_logged. reflexivity.
Qed.

Lemma detached_run_coroutine os client c w :
  detached (run_coroutine os client c) w =
  (Ok tt, logged (task_requests os client (log w) c) w).
Proof.
  unfold detached. destruct c; simpl.
  - rewrite stop_spec.
    destruct (answers client (log w) STOP_REQUEST); [reflexivity |].
    destruct (IS_LINUX os); [| reflexivity].
    destruct (answers client (log w ++ [STOP_REQUEST]) REFERENCE_STOP_REQUEST);
      reflexivity.
  - unfold move_up, write_gatt_char. rewrite call_spec.
    destruct (answers client (log w) _); reflexivity.
  - unfold move_down, write_gatt_char. rewrite call_spec.
    destruct (answers client (log w) _); reflexivity.
Qed.

Lemma logged_nil w : logged [] w = w.
Proof.
  destruct w. unfold logged; simpl. rewrite app_nil_r. reflexivity.
Qed.

Lemma drained_idle w : tasks w = [] -> drained w = w.
Proof.
  destruct w; unfold drained; simpl. intros ->. reflexivity.
Qed.

Lemma run_tasks_one os client c w :
  run_tasks os client [c] w =
  (Ok tt, logged (task_requests os client (log w) c) w).
Proof.
  unfold run_tasks, bind. rewrite detached_run_coroutine. reflexivity.
Qed.

(** A notification that is not within tolerance. *)
Lemma deliver_not_reached os config client target d data height speed w :
  tasks w = [] ->
  unpack_Hh data = Some (height, speed) ->
  has_reached_target config (inject_Z height) target = false ->
  deliver os client (_move_to config target d) data w =
  (Ok tt,
   {| stop_flag := stop_flag w;
      count := if count w + 1 =? 6 then 0 else count w + 1;
      client_set := client_set w;
      tasks := [];
      log := log w ++ Print (MsgProgress height target speed)
               :: (if count w + 1 =? 6 then [move_request d] else []) |}).
Proof.
  intros Hidle Hdata Hfar. unfold deliver, bind, detached at 1.
  rewrite (_move_to_not_reached _ _ _ _ _ _ _ Hdata Hfar).
  unfold take_tasks. projections. rewrite Hidle.
  destruct (count w + 1 =? 6).
  - rewrite app_nil_l, run_tasks_one. unfold logged. projections.
    rewrite <- app_assoc. destruct d; reflexivity.
  - reflexivity.
Qed.

Lemma deliver_reached os config client target d data height speed w :
  tasks w = [] ->
  unpack_Hh data = Some (height, speed) ->
  has_reached_target config (inject_Z height) target = true ->
  deliver os client (_move_to config target d) data w =
  (Ok tt,
   {| stop_flag := true;
      count := count w + 1;
      client_set := client_set w;
      tasks := [];
      log := log w ++ Print (MsgProgress height target speed)
               :: task_requests os client
                    (log w ++ [Print (MsgProgress height target speed)])
                    CoStop |}).
Proof.
  intros Hidle Hdata Hnear. unfold deliver, bind, detached at 1.
  rewrite (_move_to_reached _ _ _ _ _ _ _ Hdata Hnear).
  unfold take_tasks. projections. rewrite Hidle.
  rewrite app_nil_l, run_tasks_one. unfold logged. projections.
  rewrite <- app_assoc. reflexivity.
Qed.

Lemma deliver_malformed os config client target d data w :
  tasks w = [] ->
  unpack_Hh data = None ->
  deliver os client (_move_to config target d) data w = (Ok tt, w).
Proof.
  intros Hidle Hdata. unfold deliver, bind, detached.
  rewrite (_move_to_malformed _ _ _ _ _ Hdata).
  unfold take_tasks. projections. rewrite Hidle. unfold run_tasks, ret.
  f_equal. apply (drained_idle w Hidle).
Qed.

Section Loop.

Variable os : os_name.
Variable client : BleakClient.
Variable u : uuid.
Variable callback : bytes -> M unit.

Lemma sleeping_Tick rest w :
  sleeping os client u callback (Tick :: rest) w =
  if stop_flag w then stop_notify client u w
  else sleeping os client u callback rest w.
Proof.
  cbn [sleeping]. unfold bind, asked_to_stop.
  destruct (stop_flag w); reflexivity.
Qed.

Lemma sleeping_Notification data rest w w' :
  deliver os client callback data w = (Ok tt, w') ->
  sleeping os client u callback (Notification data :: rest) w =
  sleeping os client u callback rest w'.
Proof.
  intros Hdeliver. cbn [sleeping]. unfold bind at 1. rewrite Hdeliver.
  reflexivity.
Qed.

Lemma disconnect_callback_spec w :
  disconnect_callback w = (Ok tt, after_disconnect w).
Proof.
  unfold disconnect_callback, after_disconnect, bind, asked_to_stop.
  destruct (stop_flag w); reflexivity.
Qed.

Lemma sleeping_Disconnected rest w :
  sleeping os client u callback (Disconnected :: rest) w =
  sleeping os client u callback rest (after_disconnect w).
Proof.
  cbn [sleeping]. unfold bind at 1. rewrite disconnect_callback_spec.
  reflexivity.
Qed.

Lemma sleeping_Signal rest w :
  sleeping os client u callback (Signal :: rest) w =
  sleeping os client u callback rest (if IS_LINUX os then stopped w else w).
Proof.
  cbn [sleeping]. unfold bind at 1.
  destruct (IS_LINUX os); reflexivity.
Qed.

Lemma sleeping_Deadline rest w :
  sleeping os client u callback (Deadline :: rest) w = (Raise TimeoutError, w).
Proof.
  reflexivity.
Qed.

End Loop.

Section Move.

Variable os : os_name.
Variable config : Config.
Variable client : BleakClient.
Variable target : Q.
Variable d : direction.

Local Abbreviation loop :=
  (sleeping os client UUID_HEIGHT (_move_to config target d)).

Lemma sleeping_quiet before :
  forall w,
    forallb (quiet config target) before = true ->
    stop_flag w = false ->
    tasks w = [] ->
    exists w1 mid,
      (forall rest, loop (before ++ rest) w = loop rest w1) /\
      stop_flag w1 = false /\ tasks w1 = [] /\
      client_set w1 = client_set w /\
      log w1 = log w ++ mid /\ Forall (progress d) mid.
Proof.
  induction before as [| ev before IH]; intros w Hquiet Hflag Hidle.
  - exists w, []. rewrite app_nil_r. repeat split; auto.
  - cbn [forallb] in Hquiet. apply andb_true_iff in Hquiet.
    destruct Hquiet as [Hev Hquiet].
    destruct ev as [data | | | |]; cbn [quiet] in Hev; try discriminate.
    + destruct (unpack_Hh data) as [[height speed] |] eqn:Hdata.
      * apply negb_true_iff in Hev.
        pose proof (deliver_not_reached os config client target d data
                      height speed w Hidle Hdata Hev) as Hdeliver.
        match type of Hdeliver with _ = (_, ?W) => set (w' := W) in * end.
        destruct (IH w' Hquiet Hflag eq_refl)
          as (w1 & mid & Hloop & Hflag1 & Hidle1 & Hclient1 & Hlog1 & Hmid).
        exists w1, (Print (MsgProgress height target speed)
                    :: (if count w + 1 =? 6 then [move_request d] else [])
                    ++ mid).
        repeat split; auto.
        -- intros rest. cbn [app].
           rewrite (sleeping_Notification _ _ _ _ _ _ _ _ Hdeliver).
           apply Hloop.
        -- rewrite Hlog1. subst w'. projections.
           rewrite <- app_assoc. reflexivity.
        -- constructor; [right; eexists; reflexivity |].
           apply Forall_app. split; [| exact Hmid].
           destruct (count w + 1 =? 6); constructor; [left; reflexivity |].
           constructor.
      * pose proof (deliver_malformed os config client target d data w
                      Hidle Hdata) as Hdeliver.
        destruct (IH w Hquiet Hflag Hidle)
          as (w1 & mid & Hloop & Hrest).
        exists w1, mid. split; [| exact Hrest].
        intros rest. cbn [app].
        rewrite (sleeping_Notification _ _ _ _ _ _ _ _ Hdeliver).
        apply Hloop.
    + destruct (IH w Hquiet Hflag Hidle) as (w1 & mid & Hloop & Hrest).
      exists w1, mid. split; [| exact Hrest].
      intros rest. cbn [app].
      rewrite sleeping_Tick, Hflag. apply Hloop.
Qed.

End Move.

Section MoveTo.

Variable os : os_name.
Variable config : Config.
Variable client : BleakClient.
Variable target : Q.

Lemma read_gatt_char_spec uu w :
  read_gatt_char client uu w =
  (match reads client (log w) uu with
   | inl e => Raise e
   | inr data => Ok data
   end, logged [ReadGattChar uu] w).
Proof.
  unfold read_gatt_char, bind, record, logged.
  destruct (reads client (log w) uu); reflexivity.
Qed.

Lemma stop_notify_spec uu w :
  stop_notify client uu w =
  (match answers client (log w) (StopNotify uu) with
   | Some e => Raise e
   | None => Ok tt
   end, logged [StopNotify uu] w).
Proof.
  apply call_spec.
Qed.

Lemma polling_spec uu callback events w :
  polling os client uu callback events w =
  if stop_flag w then stop_notify client uu w
  else sleeping os client uu callback events w.
Proof.
  unfold polling, bind, asked_to_stop. destruct (stop_flag w); reflexivity.
Qed.

Lemma gather_spec d events w :
  gather os config client target d events w =
  let w1 := logged [StartNotify UUID_HEIGHT; move_request d] w in
  match answers client (log w) (StartNotify UUID_HEIGHT) with
  | Some e => (Raise e, w1)
  | None =>
      match answers client (log w ++ [StartNotify UUID_HEIGHT])
              (move_request d) with
      | Some e => (Raise e, w1)
      | None => polling os client UUID_HEIGHT (_move_to config target d)
                  events w1
      end
  end.
Proof.
  unfold gather, send, bind, record, ret, await, raise, logged.
  projections. rewrite <- !app_assoc. cbn [app].
  destruct (answers client (log w) (StartNotify UUID_HEIGHT));
    [reflexivity |].
  destruct (answers client (log w ++ [StartNotify UUID_HEIGHT])
              (move_request d)); reflexivity.
Qed.

Lemma move_to_spec events w data initial_height speed :
  reads client (log w) UUID_HEIGHT = inr data ->
  unpack_Hh data = Some (initial_height, speed) ->
  move_to os config client target events w =
  if has_reached_target config (inject_Z initial_height) target
  then (Ok tt, at_start w)
  else
    try_except
      (gather os config client target (first_direction initial_height target)
         events)
      is_TimeoutError
      (fun _ => print MsgTimedOut ;; stop_notify client UUID_HEIGHT)
      (at_start w).
Proof.
  intros Hread Hdata. unfold move_to, bind at 1.
  rewrite read_gatt_char_spec, Hread.
  unfold bind at 1, unpack. rewrite Hdata.
  unfold ret at 1. unfold bind at 1, set_count, logged. projections.
  fold (at_start w). unfold first_direction.
  destruct (has_reached_target config (inject_Z initial_height) target);
    reflexivity.
Qed.

End MoveTo.


Section Trace.

Variable os : os_name.
Variable config : Config.
Variable client : BleakClient.
Variable target : Q.
Variable d : direction.

Local Abbreviation loop :=
  (sleeping os client UUID_HEIGHT (_move_to config target d)).

Lemma task_requests_CoStop history :
  Forall (during_move d) (task_requests os client history CoStop).
Proof.
  unfold task_requests.
  destruct (answers client history STOP_REQUEST); [| destruct (IS_LINUX os)];
    trace_ok.
Qed.

Lemma deliver_trace data w :
  tasks w = [] ->
  exists w' rest,
    deliver os client (_move_to config target d) data w = (Ok tt, w') /\
    tasks w' = [] /\ log w' = log w ++ rest /\ Forall (during_move d) rest.
Proof.
  intros Hidle.
  destruct (unpack_Hh data) as [[height speed] |] eqn:Hdata.
  - destruct (has_reached_target config (inject_Z height) target) eqn:Hnear.
    + eexists. eexists. split.
      * apply (deliver_reached os config client target d data height speed w
                 Hidle Hdata Hnear).
      * projections. repeat split.
        apply Forall_cons; [unfold during_move; eauto 6 |].
        apply task_requests_CoStop.
    + eexists. eexists. split.
      * apply (deliver_not_reached os config client target d data height
                 speed w Hidle Hdata Hnear).
      * projections. repeat split.
        destruct (count w + 1 =? 6); trace_ok.
  - exists w, []. split.
    + apply (deliver_malformed os config client target d data w Hidle Hdata).
    + rewrite app_nil_r. repeat split; auto.
Qed.


End Trace.


Lemma commands_app l l' : commands (l ++ l') = commands l ++ commands l'.
Proof.
  apply filter_app.
Qed.

Lemma resend_arithmetic (c n : Z) :
  0 <= c < 6 -> 0 <= n ->
  ((if c + 1 =? 6 then 0 else c + 1) + n) mod 6 = (c + (n + 1)) mod 6 /\
  (c + (n + 1)) / 6 =
  (if c + 1 =? 6 then 1 else 0) + ((if c + 1 =? 6 then 0 else c + 1) + n) / 6.
Proof.
  intros Hc Hn. destruct (c + 1 =? 6) eqn:Hsix.
  - apply Z.eqb_eq in Hsix. replace (c + (n + 1)) with (n + 1 * 6) by lia.
    rewrite Z.mod_add, Z.div_add by lia. rewrite Z.add_0_l. lia.
  - replace (c + (n + 1)) with (c + 1 + n) by lia. lia.
Qed.

Section Resend.

Variable os : os_name.
Variable config : Config.
Variable client : BleakClient.
Variable target : Q.
Variable d : direction.

Local Abbreviation loop :=
  (sleeping os client UUID_HEIGHT (_move_to config target d)).

Lemma sleeping_resend datas :
  forall w,
    forallb (far config target) datas = true ->
    tasks w = [] ->
    0 <= count w < 6 ->
    exists w1,
      (forall rest, loop (map Notification datas ++ rest) w = loop rest w1) /\
      count w1 = (count w + Z.of_nat (List.length datas)) mod 6 /\
      commands (log w1) =
      commands (log w) ++
      repeat (move_request d)
        (Z.to_nat ((count w + Z.of_nat (List.length datas)) / 6)) /\
      stop_flag w1 = stop_flag w /\ tasks w1 = [].
Proof.
  induction datas as [| data datas IH]; intros w Hfar Hidle Hcount.
  - exists w. cbn [List.length map app Z.of_nat].
    rewrite Z.add_0_r, Z.mod_small, Z.div_small by lia.
    cbn [Z.to_nat repeat]. rewrite app_nil_r. repeat split; auto.
  - cbn [forallb] in Hfar. apply andb_true_iff in Hfar.
    destruct Hfar as [Hdata Hfar]. unfold far in Hdata.
    destruct (unpack_Hh data) as [[height speed] |] eqn:Hunpack;
      [| discriminate].
    apply negb_true_iff in Hdata.
    pose proof (deliver_not_reached os config client target d data height
                  speed w Hidle Hunpack Hdata) as Hdeliver.
    match type of Hdeliver with _ = (_, ?W) => set (w' := W) in * end.
    assert (Hcount' : 0 <= count w' < 6).
    { subst w'. projections. destruct (count w + 1 =? 6) eqn:Hsix; [lia |].
      apply Z.eqb_neq in Hsix. lia. }
    destruct (IH w' Hfar eq_refl Hcount')
      as (w1 & Hloop & Hcount1 & Hcommands1 & Hflag1 & Hidle1).
    exists w1.
    destruct (resend_arithmetic (count w) (Z.of_nat (List.length datas)))
      as [Hmod Hdiv]; [lia | lia |].
    cbn [List.length]. rewrite Nat2Z.inj_succ, <- Z.add_1_r.
    repeat split.
    + intros rest. cbn [map app].
      rewrite (sleeping_Notification _ _ _ _ _ _ _ _ Hdeliver). apply Hloop.
    + rewrite Hcount1. subst w'. projections. exact Hmod.
    + rewrite Hcommands1, Hdiv. subst w'. projections.
      rewrite commands_app, <- app_assoc. f_equal.
      destruct (count w + 1 =? 6) eqn:Hsix.
      * rewrite Z2Nat.inj_add by (try lia; apply Z.div_pos; lia).
        destruct d; reflexivity.
      * rewrite Z.add_0_l. reflexivity.
    + exact Hflag1.
    + exact Hidle1.
Qed.

End Resend.

(** C1.  On a notification that is not within tolerance [_move_to] adds one
    to the counter; when that makes it 6 the command of the direction fixed
    for the move is created once and the counter goes back to 0, and when it
    does not, nothing is created.  Over a run of such notifications from a
    counter at 0, the writes are one directional command per six
    notifications and nothing else. *)
Theorem resend_counter os config client target d :
  (forall w data height speed,
      unpack_Hh data = Some (height, speed) ->
      has_reached_target config (inject_Z height) target = false ->
      exists w',
        _move_to config target d data w = (Ok tt, w') /\
        stop_flag w' = stop_flag w /\
        (count w + 1 = 6 ->
         count w' = 0 /\ tasks w' = tasks w ++ [move_task d]) /\
        (count w + 1 <> 6 ->
         count w' = count w + 1 /\ tasks w' = tasks w)) /\
  (forall datas w,
      forallb (far config target) datas = true ->
      tasks w = [] ->
      count w = 0 ->
      exists w1,
        (forall rest,
            sleeping os client UUID_HEIGHT (_move_to config target d)
              (map Notification datas ++ rest) w =
            sleeping os client UUID_HEIGHT (_move_to config target d)
              rest w1) /\
        count w1 = Z.of_nat (List.length datas) mod 6 /\
        commands (log w1) =
        commands (log w) ++
        repeat (move_request d) (List.length datas / 6)%nat /\
        stop_flag w1 = stop_flag w).
Proof.
  split.
  - intros w data height speed Hdata Hfar.
    eexists. split;
      [apply (_move_to_not_reached config target d data height speed w
                Hdata Hfar) |].
    projections. split; [reflexivity |]. split.
    + intros Hsix. apply Z.eqb_eq in Hsix. rewrite Hsix. auto.
    + intros Hsix. apply Z.eqb_neq in Hsix. rewrite Hsix. auto.
  - intros datas w Hfar Hidle Hcount.
    destruct (sleeping_resend os config client target d datas w Hfar Hidle)
      as (w1 & Hloop & Hcount1 & Hcommands1 & Hflag1 & _); [lia |].
    exists w1. rewrite Hcount, Z.add_0_l in Hcount1, Hcommands1.
    repeat split; auto.
    rewrite Hcommands1. do 2 f_equal.
    change 6 with (Z.of_nat 6). rewrite <- Nat2Z.inj_div. apply Nat2Z.id.
Qed.

(* ------------------------------------------------------------------ *)
(** ** The stop flag is never cleared *)

Create HintDb keeps discriminated.

Section KeepsStop.

Lemma keeps_ret A (a : A) : keeps_stop (ret a).
Proof. intros w Hw. exact Hw. Qed.

Lemma keeps_raise A e : keeps_stop (@raise A e).
Proof. intros w Hw. exact Hw. Qed.

Lemma keeps_pending A : keeps_stop (@pending A).
Proof. intros w Hw. exact Hw. Qed.

Lemma keeps_os_exit A n : keeps_stop (@os_exit A n).
Proof. intros w Hw. exact Hw. Qed.

Lemma keeps_record a : keeps_stop (record a).
Proof. intros w Hw. exact Hw. Qed.

Lemma keeps_print m : keeps_stop (print m).
Proof. intros w Hw. exact Hw. Qed.

Lemma keeps_get_count : keeps_stop get_count.
Proof. intros w Hw. exact Hw. Qed.

Lemma keeps_set_count n : keeps_stop (set_count n).
Proof. intros w Hw. exact Hw. Qed.

Lemma keeps_set_client : keeps_stop set_client.
Proof. intros w Hw. exact Hw. Qed.

Lemma keeps_get_client_set : keeps_stop get_client_set.
Proof. intros w Hw. exact Hw. Qed.

Lemma keeps_asked_to_stop : keeps_stop asked_to_stop.
Proof. intros w Hw. exact Hw. Qed.

Lemma keeps_ask_to_stop : keeps_stop ask_to_stop.
Proof. intros w Hw. reflexivity. Qed.

Lemma keeps_create_task c : keeps_stop (create_task c).
Proof. intros w Hw. exact Hw. Qed.

Lemma keeps_take_tasks : keeps_stop take_tasks.
Proof. intros w Hw. exact Hw. Qed.

Lemma keeps_await answer : keeps_stop (await answer).
Proof. intros w Hw. destruct answer; exact Hw. Qed.

Lemma keeps_unpack data : keeps_stop (unpack data).
Proof. intros w Hw. unfold unpack. destruct (unpack_Hh data); exact Hw. Qed.

Lemma keeps_bind A B (c : M A) (k : A -> M B) :
  keeps_stop c -> (forall a, keeps_stop (k a)) -> keeps_stop (bind c k).
Proof.
  intros Hc Hk w Hw. unfold bind. specialize (Hc w Hw).
  destruct (c w) as [[a | e | n |] w']; cbn [snd] in *;
    [apply Hk | ..]; assumption.
Qed.

Lemma keeps_try_except A (c : M A) handles h :
  keeps_stop c -> (forall e, keeps_stop (h e)) ->
  keeps_stop (try_except c handles h).
Proof.
  intros Hc Hh w Hw. unfold try_except. specialize (Hc w Hw).
  destruct (c w) as [[a | e | n |] w']; cbn [snd] in *; try assumption.
  destruct (handles e); [apply Hh |]; assumption.
Qed.

Lemma keeps_detached (c : M unit) : keeps_stop c -> keeps_stop (detached c).
Proof.
  intros Hc w Hw. unfold detached. specialize (Hc w Hw).
  destruct (c w) as [[a | e | n |] w']; assumption.
Qed.

Lemma keeps_send client a : keeps_stop (send client a).
Proof. intros w Hw. exact Hw. Qed.

Lemma keeps_call client a : keeps_stop (call client a).
Proof.
  intros w Hw. rewrite call_spec. exact Hw.
Qed.

Lemma keeps_read_gatt_char client uu : keeps_stop (read_gatt_char client uu).
Proof.
  intros w Hw. rewrite read_gatt_char_spec. exact Hw.
Qed.

End KeepsStop.

#[export] Hint Resolve keeps_ret keeps_raise keeps_pending keeps_os_exit
  keeps_record keeps_print keeps_get_count keeps_set_count keeps_set_client
  keeps_get_client_set keeps_asked_to_stop keeps_ask_to_stop
  keeps_create_task keeps_take_tasks keeps_await keeps_unpack keeps_bind
  keeps_try_except keeps_detached keeps_send keeps_call
  keeps_read_gatt_char : keeps.

(** Branches of the script are taken apart before the hints apply. *)
Ltac keeps :=
  repeat first
    [ progress intros
    | match goal with
      | |- keeps_stop (if ?b then _ else _) => destruct b
      | |- keeps_stop (match ?x with _ => _ end) => destruct x
      | |- keeps_stop (let '(_, _) := ?x in _) => destruct x
      end
    | apply keeps_bind
    | apply keeps_try_except
    | apply keeps_detached
    | solve [auto with keeps] ].

Section KeepsStopScript.

Variable os : os_name.
Variable config : Config.
Variable client : BleakClient.

Lemma keeps_stop_notify uu : keeps_stop (stop_notify client uu).
Proof. unfold stop_notify. keeps. Qed.

Lemma keeps_start_notify uu : keeps_stop (start_notify client uu).
Proof. unfold start_notify. keeps. Qed.

Lemma keeps_write_gatt_char uu data :
  keeps_stop (write_gatt_char client uu data).
Proof. unfold write_gatt_char. keeps. Qed.

#[local] Hint Resolve keeps_stop_notify keeps_start_notify keeps_write_gatt_char
  : keeps.

Lemma keeps_stop_coroutine : keeps_stop (stop os client).
Proof. unfold stop. keeps. Qed.

Lemma keeps_run_coroutine c : keeps_stop (run_coroutine os client c).
Proof.
  destruct c; cbn [run_coroutine]; [apply keeps_stop_coroutine | |];
    unfold move_up, move_down; keeps.
Qed.

#[local] Hint Resolve keeps_run_coroutine : keeps.

Lemma keeps_run_tasks cs : keeps_stop (run_tasks os client cs).
Proof.
  induction cs as [| c cs IH]; cbn [run_tasks]; keeps.
Qed.

#[local] Hint Resolve keeps_run_tasks : keeps.

Lemma keeps_print_height_data data : keeps_stop (print_height_data data).
Proof. unfold print_height_data. keeps. Qed.

Lemma keeps__move_to target d data :
  keeps_stop (_move_to config target d data).
Proof. unfold _move_to. keeps. Qed.

Lemma keeps_disconnect_callback : keeps_stop disconnect_callback.
Proof. unfold disconnect_callback. keeps. Qed.

#[local] Hint Resolve keeps_print_height_data keeps__move_to
  keeps_disconnect_callback : keeps.

Lemma keeps_deliver callback data :
  (forall data', keeps_stop (callback data')) ->
  keeps_stop (deliver os client callback data).
Proof. intros Hcb. unfold deliver. keeps. Qed.

#[local] Hint Resolve keeps_deliver : keeps.

Lemma keeps_sleeping uu callback events :
  (forall data, keeps_stop (callback data)) ->
  keeps_stop (sleeping os client uu callback events).
Proof.
  intros Hcb. induction events as [| ev events IH]; cbn [sleeping]; keeps.
Qed.

#[local] Hint Resolve keeps_sleeping : keeps.

Lemma keeps_polling uu callback events :
  (forall data, keeps_stop (callback data)) ->
  keeps_stop (polling os client uu callback events).
Proof. intros Hcb. unfold polling. keeps. Qed.

#[local] Hint Resolve keeps_polling : keeps.

Lemma keeps_subscribe uu callback events :
  (forall data, keeps_stop (callback data)) ->
  keeps_stop (subscribe os client uu callback events).
Proof. intros Hcb. unfold subscribe. keeps. Qed.

Lemma keeps_gather target d events :
  keeps_stop (gather os config client target d events).
Proof. unfold gather. keeps. Qed.

#[local] Hint Resolve keeps_subscribe keeps_gather : keeps.

Lemma keeps_move_to target events :
  keeps_stop (move_to os config client target events).
Proof. unfold move_to. keeps. Qed.

End KeepsStopScript.

(* ------------------------------------------------------------------ *)
(** ** Disconnection *)

Section Disconnection.

Variable os : os_name.
Variable client : BleakClient.
Variable u : uuid.
Variable callback : bytes -> M unit.
Hypothesis callback_keeps : forall data, keeps_stop (callback data).
Hypothesis callback_returns :
  forall data w, exists w', detached (callback data) w = (Ok tt, w').

Lemma run_tasks_returns cs :
  forall w, exists w', run_tasks os client cs w = (Ok tt, w').
Proof.
  induction cs as [| c cs IH]; intros w; cbn [run_tasks].
  - eexists. reflexivity.
  - unfold bind. rewrite detached_run_coroutine. apply IH.
Qed.

Lemma deliver_returns data w :
  exists w',
    deliver os client callback data w = (Ok tt, w') /\
    (stop_flag w = true -> stop_flag w' = true).
Proof.
  pose proof (keeps_deliver os client callback data callback_keeps w) as Hkeeps.
  unfold deliver, bind in *.
  destruct (callback_returns data w) as [w1 Hcb]. rewrite Hcb in *.
  unfold take_tasks in *.
  match goal with
  | |- context [run_tasks os client ?cs ?w2] =>
      destruct (run_tasks_returns cs w2) as [w' Htasks]
  end.
  rewrite Htasks in *. exists w'. split; [reflexivity | exact Hkeeps].
Qed.



End Disconnection.


Lemma detached_print_height_data_returns data w :
  exists w', detached (print_height_data data) w = (Ok tt, w').
Proof.
  unfold detached, print_height_data, bind, unpack.
  destruct (unpack_Hh data) as [[height speed] |]; eexists; reflexivity.
Qed.



(* ------------------------------------------------------------------ *)
(** ** The stop flag over the whole script *)

#[export] Hint Resolve keeps_stop_notify keeps_start_notify
  keeps_write_gatt_char keeps_run_coroutine keeps_run_tasks
  keeps_print_height_data keeps__move_to keeps_disconnect_callback
  keeps_deliver keeps_sleeping keeps_polling keeps_subscribe keeps_gather
  keeps_move_to : keeps.

Section KeepsStopTopLevel.

Variable os : os_name.
Variable config : Config.
Variable client : BleakClient.
Variable desk_pickle : option BLEDevice.
Variable discovered : exn + list BLEDevice.
Variable pickle_dump_answer : option exn.

Lemma keeps_pickle_desk desk :
  keeps_stop (pickle_desk os pickle_dump_answer desk).
Proof. unfold pickle_desk. keeps. Qed.

Lemma keeps_scan mac : keeps_stop (scan discovered mac).
Proof. unfold scan. keeps. Qed.

Lemma keeps_connect desk : keeps_stop (connect client desk).
Proof. unfold connect. keeps. Qed.

Lemma keeps_print_devices devices : keeps_stop (print_devices devices).
Proof. induction devices as [| device devices IH]; cbn [print_devices]; keeps. Qed.

#[local] Hint Resolve keeps_pickle_desk keeps_scan keeps_connect keeps_print_devices
  : keeps.

Lemma keeps_find_desk :
  keeps_stop (find_desk os config desk_pickle discovered).
Proof. unfold find_desk. keeps. Qed.

Lemma keeps_operate events : keeps_stop (operate os config client events).
Proof. unfold operate. keeps. Qed.

#[local] Hint Resolve keeps_find_desk keeps_operate : keeps.

Lemma keeps_session desk events :
  keeps_stop (session os config client pickle_dump_answer desk events).
Proof. unfold session. keeps. Qed.

#[local] Hint Resolve keeps_session : keeps.

Lemma keeps_run_body events :
  keeps_stop (run_body os config client desk_pickle discovered
                pickle_dump_answer events).
Proof. unfold run_body. keeps. Qed.

#[local] Hint Resolve keeps_run_body : keeps.

Lemma keeps_run events :
  keeps_stop (run os config client desk_pickle discovered pickle_dump_answer
                events).
Proof. unfold run. keeps. Qed.

#[local] Hint Resolve keeps_run : keeps.

Lemma keeps_main events :
  keeps_stop (main os config client desk_pickle discovered pickle_dump_answer
                events).
Proof. unfold main. keeps. Qed.

End KeepsStopTopLevel.

(** C10.  [ask_to_stop] sets the flag and nothing clears it: the whole
    script, a move, a delivered notification and the disconnection callback
    all leave a set flag set, so [asked_to_stop] keeps answering true; and a
    [subscribe] started with the flag set is [start_notify] followed at once
    by [stop_notify], with no event taken and no callback run. *)
Theorem stop_flag_monotone os config client desk_pickle discovered
  pickle_dump_answer :
  (forall w, stop_flag (snd (ask_to_stop w)) = true) /\
  (forall w, stop_flag w = true -> asked_to_stop w = (Ok true, w)) /\
  (forall events, keeps_stop (main os config client desk_pickle discovered
                                pickle_dump_answer events)) /\
  (forall target events,
      keeps_stop (move_to os config client target events)) /\
  (forall target d data,
      keeps_stop (deliver os client (_move_to config target d) data)) /\
  keeps_stop disconnect_callback /\
  (forall u callback events w,
      stop_flag w = true ->
      subscribe os client u callback events w =
      (start_notify client u ;; stop_notify client u) w).
Proof.
  repeat split.
  - intros w Hw. unfold asked_to_stop. rewrite Hw. reflexivity.
  - intros events. apply keeps_main.
  - intros target events. apply keeps_move_to.
  - intros target d data. apply keeps_deliver. intros data'.
    apply keeps__move_to.
  - apply keeps_disconnect_callback.
  - intros u callback events w Hw.
    unfold subscribe, bind, start_notify. rewrite !call_spec.
    destruct (answers client (log w) (StartNotify u)); [reflexivity |].
    rewrite polling_spec. unfold logged at 1. projections. rewrite Hw.
    unfold stop_notify. rewrite call_spec. reflexivity.
Qed.

(* ------------------------------------------------------------------ *)
(** ** Exit statuses *)

Create HintDb stays discriminated.

Section NeverExits.

Lemma stays_ret A (a : A) : never_exits (ret a).
Proof. intros w n. discriminate. Qed.

Lemma stays_raise A e : never_exits (@raise A e).
Proof. intros w n. discriminate. Qed.

Lemma stays_pending A : never_exits (@pending A).
Proof. intros w n. discriminate. Qed.

Lemma stays_record a : never_exits (record a).
Proof. intros w n. discriminate. Qed.

Lemma stays_print m : never_exits (print m).
Proof. intros w n. discriminate. Qed.

Lemma stays_get_count : never_exits get_count.
Proof. intros w n. discriminate. Qed.

Lemma stays_set_count k : never_exits (set_count k).
Proof. intros w n. discriminate. Qed.

Lemma stays_set_client : never_exits set_client.
Proof. intros w n. discriminate. Qed.

Lemma stays_asked_to_stop : never_exits asked_to_stop.
Proof. intros w n. discriminate. Qed.

Lemma stays_ask_to_stop : never_exits ask_to_stop.
Proof. intros w n. discriminate. Qed.

Lemma stays_create_task c : never_exits (create_task c).
Proof. intros w n. discriminate. Qed.

Lemma stays_take_tasks : never_exits take_tasks.
Proof. intros w n. discriminate. Qed.

Lemma stays_await answer : never_exits (await answer).
Proof. intros w n. destruct answer; discriminate. Qed.

Lemma stays_unpack data : never_exits (unpack data).
Proof.
  intros w n. unfold unpack. destruct (unpack_Hh data); discriminate.
Qed.

Lemma stays_bind A B (c : M A) (k : A -> M B) :
  never_exits c -> (forall a, never_exits (k a)) -> never_exits (bind c k).
Proof.
  intros Hc Hk w n. unfold bind. specialize (Hc w).
  destruct (c w) as [[a | e | m |] w']; cbn [fst] in *;
    [apply Hk | discriminate | exfalso; apply (Hc m); reflexivity | discriminate].
Qed.

Lemma stays_try_except A (c : M A) handles h :
  never_exits c -> (forall e, never_exits (h e)) ->
  never_exits (try_except c handles h).
Proof.
  intros Hc Hh w n. unfold try_except. specialize (Hc w).
  destruct (c w) as [[a | e | m |] w']; cbn [fst] in *;
    [discriminate | | exfalso; apply (Hc m); reflexivity | discriminate].
  destruct (handles e); [apply Hh | discriminate].
Qed.

Lemma stays_detached (c : M unit) : never_exits c -> never_exits (detached c).
Proof.
  intros Hc w n. unfold detached. specialize (Hc w).
  destruct (c w) as [[a | e | m |] w']; cbn [fst] in *;
    [discriminate | discriminate | exfalso; apply (Hc m); reflexivity | discriminate].
Qed.

Lemma stays_send client a : never_exits (send client a).
Proof. intros w n. discriminate. Qed.

Lemma stays_call client a : never_exits (call client a).
Proof.
  intros w n. rewrite call_spec.
  destruct (answers client (log w) a); discriminate.
Qed.

Lemma stays_read_gatt_char client uu :
  never_exits (read_gatt_char client uu).
Proof.
  intros w n. rewrite read_gatt_char_spec.
  destruct (reads client (log w) uu); discriminate.
Qed.

End NeverExits.

#[export] Hint Resolve stays_ret stays_raise stays_pending stays_record
  stays_print stays_get_count stays_set_count stays_set_client
  stays_asked_to_stop stays_ask_to_stop stays_create_task stays_take_tasks
  stays_await stays_unpack stays_bind stays_try_except stays_detached
  stays_send stays_call stays_read_gatt_char : stays.

Ltac stays :=
  repeat first
    [ progress intros
    | match goal with
      | |- never_exits (if ?b then _ else _) => destruct b
      | |- never_exits (match ?x with _ => _ end) => destruct x
      | |- never_exits (let '(_, _) := ?x in _) => destruct x
      end
    | apply stays_bind
    | apply stays_try_except
    | apply stays_detached
    | solve [auto with stays] ].

Section NeverExitsScript.

Variable os : os_name.
Variable config : Config.
Variable client : BleakClient.
Variable pickle_dump_answer : option exn.

Lemma stays_run_coroutine c : never_exits (run_coroutine os client c).
Proof.
  destruct c; cbn [run_coroutine];
    unfold stop, move_up, move_down, write_gatt_char; stays.
Qed.

#[local] Hint Resolve stays_run_coroutine : stays.

Lemma stays_run_tasks cs : never_exits (run_tasks os client cs).
Proof. induction cs as [| c cs IH]; cbn [run_tasks]; stays. Qed.

#[local] Hint Resolve stays_run_tasks : stays.

Lemma stays_print_height_data data : never_exits (print_height_data data).
Proof. unfold print_height_data. stays. Qed.

Lemma stays__move_to target d data :
  never_exits (_move_to config target d data).
Proof. unfold _move_to. stays. Qed.

#[local] Hint Resolve stays_print_height_data stays__move_to : stays.

Lemma stays_sleeping uu callback events :
  (forall data, never_exits (callback data)) ->
  never_exits (sleeping os client uu callback events).
Proof.
  intros Hcb.
  induction events as [| ev events IH]; cbn [sleeping];
    unfold deliver, disconnect_callback, stop_notify; stays.
Qed.

#[local] Hint Resolve stays_sleeping : stays.

Lemma stays_subscribe uu callback events :
  (forall data, never_exits (callback data)) ->
  never_exits (subscribe os client uu callback events).
Proof.
  intros Hcb. unfold subscribe, polling, start_notify, stop_notify. stays.
Qed.

Lemma stays_move_to target events :
  never_exits (move_to os config client target events).
Proof.
  unfold move_to, gather, polling, stop_notify. stays.
Qed.

#[local] Hint Resolve stays_subscribe stays_move_to : stays.

Lemma stays_session desk events :
  never_exits (session os config client pickle_dump_answer desk events).
Proof.
  unfold session, operate, pickle_desk. stays.
Qed.

End NeverExitsScript.

Lemma validate_None s :
  validate s = None ->
  truthy_str (mac_address s) = true /\
  Qle_bool (stand_height s) (sit_height s) = false /\
  Qlt_bool (sit_height s) (inject_Z BASE_HEIGHT) = false /\
  Qlt_bool (inject_Z MAX_HEIGHT) (stand_height s) = false.
Proof.
  unfold validate.
  destruct (truthy_str (mac_address s)); cbn [negb]; [| discriminate].
  destruct (Qle_bool (stand_height s) (sit_height s)); [discriminate |].
  destruct (Qlt_bool (sit_height s) (inject_Z BASE_HEIGHT)); [discriminate |].
  destruct (Qlt_bool (inject_Z MAX_HEIGHT) (stand_height s));
    [discriminate | auto].
Qed.

Lemma Qlt_bool_iff x y : Qlt_bool x y = true <-> (x < y)%Q.
Proof.
  unfold Qlt_bool. rewrite negb_true_iff. split.
  - intros Hle. apply Qnot_le_lt. intros Hyx.
    apply Qle_bool_iff in Hyx. congruence.
  - intros Hlt. destruct (Qle_bool y x) eqn:Hle; [| reflexivity].
    apply Qle_bool_iff in Hle. exfalso. apply (Qlt_not_le _ _ Hlt Hle).
Qed.


Section Statuses.

Variable os : os_name.
Variable config : Config.
Variable client : BleakClient.
Variable desk_pickle : option BLEDevice.
Variable discovered : exn + list BLEDevice.
Variable pickle_dump_answer : option exn.

Local Abbreviation the_run_body :=
  (run_body os config client desk_pickle discovered pickle_dump_answer).
Local Abbreviation the_run :=
  (run os config client desk_pickle discovered pickle_dump_answer).
Local Abbreviation the_main :=
  (main os config client desk_pickle discovered pickle_dump_answer).







Lemma find_desk_known w desk :
  truthy_str (mac_address config) = true ->
  unpickle_desk os config desk_pickle = Some desk \/
  (unpickle_desk os config desk_pickle = None /\
   exists devices,
     discovered = inr devices /\
     find (has_address (mac_address config)) devices = Some desk) ->
  exists w',
    find_desk os config desk_pickle discovered w = (Ok (Some desk), w').
Proof.
  intros Hmac [Hpickle | (Hpickle & devices & Hfound & Hfind)];
    unfold find_desk; rewrite Hpickle.
  - eexists. reflexivity.
  - unfold scan, bind, print, record. rewrite Hfound, Hmac. cbn [negb].
    rewrite Hfind. eexists. reflexivity.
Qed.






End Statuses.


(* ------------------------------------------------------------------ *)
(** ** The compound stop *)

(** C5 (as amended).  [stop] always writes the Stop code (255, two bytes,
    little endian) to the Command characteristic; on Linux, once that write
    has succeeded, it writes the Reference-Input Stop code (32769) to the
    Reference Input characteristic.  [stop] catches nothing: the failure of
    either write is the failure of [stop], and a failed Command write skips
    the second one.  Run as a created task, which is how the callback runs
    it, a failure of either write reaches no coroutine. *)
Theorem stop_writes (os : os_name) (client : BleakClient) (w : world) :
  COMMAND_STOP = [xff; x00] /\
  COMMAND_REFERENCE_INPUT_STOP = [x01; x80] /\
  stop os client w =
  match answers client (log w) STOP_REQUEST with
  | Some e => (Raise e, logged [STOP_REQUEST] w)
  | None =>
      if IS_LINUX os then
        (match answers client (log w ++ [STOP_REQUEST])
                 REFERENCE_STOP_REQUEST with
         | Some e => Raise e
         | None => Ok tt
         end, logged [STOP_REQUEST; REFERENCE_STOP_REQUEST] w)
      else (Ok tt, logged [STOP_REQUEST] w)
  end /\
  run_tasks os client [CoStop] w =
  (Ok tt, logged (task_requests os client (log w) CoStop) w).
Proof.
  split; [reflexivity |]. split; [reflexivity |].
  split; [apply stop_spec | apply run_tasks_one].
Qed.

(** C5 as stated fails: on Linux, with a client that accepts the Command
    write and refuses the Reference Input write, [stop] raises. *)
Lemma stop_raises_when_reference_input_refused :
  answers reference_input_refused (log initial_world) STOP_REQUEST = None /\
  stop posix reference_input_refused initial_world =
  (Raise BleakError,
   logged [STOP_REQUEST; REFERENCE_STOP_REQUEST] initial_world).
Proof.
  split; reflexivity.
Qed.

(* ------------------------------------------------------------------ *)
(** ** The properties on a sample run *)

Lemma resend_counter_witness :
  exists w',
    _move_to (derive sample_settings) 630 UP lowest five_counted =
    (Ok tt, w') /\
    stop_flag w' = stop_flag five_counted /\
    (count five_counted + 1 = 6 ->
     count w' = 0 /\ tasks w' = tasks five_counted ++ [move_task UP]) /\
    (count five_counted + 1 <> 6 ->
     count w' = count five_counted + 1 /\ tasks w' = tasks five_counted).
Proof.
  apply (proj1 (resend_counter posix (derive sample_settings) obliging_client
                  630 UP) five_counted lowest 0 0); reflexivity.
Defined.





Lemma stop_flag_monotone_witness :
  stop_flag (snd (move_to posix (derive sample_settings) obliging_client 630
                    [Tick] (stopped initial_world))) = true.
Proof.
  apply (proj1 (proj2 (proj2 (proj2
           (stop_flag_monotone posix (derive sample_settings) obliging_client
              None (inr []) None))))).
  reflexivity.
Defined.



(* ================================================================== *)
(** * Further properties *)

(* ------------------------------------------------------------------ *)
(** ** Codecs: round trip *)

Lemma u8_byte_of_Z (z : Z) : 0 <= z < 256 -> u8 (byte_of_Z z) = z.
Proof.
  intros Hz. unfold u8, byte_of_Z.
  destruct (Byte.of_N (Z.to_N z)) as [b |] eqn:Hb.
  - rewrite (Byte.to_of_N _ Hb). lia.
  - apply Byte.of_N_None_iff in Hb. lia.
Qed.

Lemma u8_injective (b b' : byte) : u8 b = u8 b' -> b = b'.
Proof.
  unfold u8. intros Heq. apply Nat2Z.inj in Heq || idtac.
  assert (Hn : Byte.to_N b = Byte.to_N b') by lia.
  pose proof (Byte.of_to_N b) as Hb. rewrite Hn, Byte.of_to_N in Hb.
  congruence.
Qed.

(** X1.  [struct.pack("<H", v)] succeeds exactly for [0 <= v <= 65535]; its
    two bytes, followed by any two speed bytes, are read back by
    [struct.unpack("<Hh", _)] with height [v].  Outside that range packing
    is refused. *)
Theorem pack_H_round_trip :
  (forall v : Z,
      0 <= v <= 65535 ->
      exists b0 b1 : byte,
        pack_H v = Some [b0; b1] /\
        forall b2 b3 : byte,
          exists speed : Z, unpack_Hh [b0; b1; b2; b3] = Some (v, speed)) /\
  (forall v : Z, v < 0 \/ 65535 < v -> pack_H v = None).
Proof.
  split.
  - intros v Hv. unfold pack_H.
    replace ((0 <=? v) && (v <=? 65535)) with true
      by (symmetry; apply andb_true_iff; split; apply Z.leb_le; lia).
    eexists. eexists. split; [reflexivity |].
    intros b2 b3. eexists. unfold unpack_Hh. f_equal. f_equal.
    change 255 with (Z.ones 8).
    rewrite !Z.land_ones, Z.shiftr_div_pow2 by lia.
    change (2 ^ 8) with 256.
    assert (Hlow : 0 <= v mod 256 < 256) by (apply Z.mod_pos_bound; lia).
    assert (Hhigh : 0 <= (v / 256) mod 256 < 256)
      by (apply Z.mod_pos_bound; lia).
    rewrite lor_shiftl_8 by (rewrite u8_byte_of_Z; assumption).
    rewrite !u8_byte_of_Z by assumption.
    rewrite (Z.mod_small (v / 256)) by (split; [apply Z.div_pos; lia |
      apply Z.div_lt_upper_bound; lia]).
    pose proof (Z.div_mod v 256). lia.
  - intros v Hv. unfold pack_H.
    destruct (0 <=? v) eqn:Hlow; [| reflexivity].
    destruct (v <=? 65535) eqn:Hhigh; [| reflexivity].
    apply Z.leb_le in Hlow. apply Z.leb_le in Hhigh. lia.
Qed.

Lemma to_signed16_injective (x y : Z) :
  0 <= x < 65536 -> 0 <= y < 65536 ->
  to_signed16 x = to_signed16 y -> x = y.
Proof.
  unfold to_signed16. intros Hx Hy.
  destruct (x <? 32768) eqn:Hsx; destruct (y <? 32768) eqn:Hsy;
    try apply Z.ltb_lt in Hsx; try apply Z.ltb_ge in Hsx;
    try apply Z.ltb_lt in Hsy; try apply Z.ltb_ge in Hsy; lia.
Qed.

(** X2.  Decoding loses nothing: two payloads that [struct.unpack("<Hh", _)]
    decodes to the same height and speed are the same bytes. *)
Theorem unpack_Hh_injective (data data' : bytes) (decoded : Z * Z) :
  unpack_Hh data = Some decoded ->
  unpack_Hh data' = Some decoded ->
  data = data'.
Proof.
  intros Hdata Hdata'.
  destruct data as [| b0 [| b1 [| b2 [| b3 [| b4 rest]]]]];
    try discriminate.
  destruct data' as [| c0 [| c1 [| c2 [| c3 [| c4 rest']]]]];
    try discriminate.
  unfold unpack_Hh in *. rewrite <- Hdata' in Hdata. clear Hdata'.
  pose proof (u8_range b0). pose proof (u8_range b1).
  pose proof (u8_range b2). pose proof (u8_range b3).
  pose proof (u8_range c0). pose proof (u8_range c1).
  pose proof (u8_range c2). pose proof (u8_range c3).
  rewrite !lor_shiftl_8 in Hdata by assumption.
  remember (u8 b0 + 256 * u8 b1) as h eqn:Hh.
  remember (u8 c0 + 256 * u8 c1) as h' eqn:Hh'.
  remember (u8 b2 + 256 * u8 b3) as r eqn:Hr.
  remember (u8 c2 + 256 * u8 c3) as r' eqn:Hr'.
  injection Hdata as Hheight Hspeed.
  apply to_signed16_injective in Hspeed; [| lia | lia].
  assert (u8 b0 = u8 c0) by lia. assert (u8 b1 = u8 c1) by lia.
  assert (u8 b2 = u8 c2) by lia. assert (u8 b3 = u8 c3) by lia.
  f_equal; [apply u8_injective; assumption |].
  f_equal; [apply u8_injective; assumption |].
  f_equal; [apply u8_injective; assumption |].
  f_equal. apply u8_injective. assumption.
Qed.

Lemma unpack_Hh_injective_witness : [x64; x00; xf6; xff] = [x64; x00; xf6; xff].
Proof.
  apply (unpack_Hh_injective _ _ (100, -10)); reflexivity.
Defined.

(* ------------------------------------------------------------------ *)
(** ** The configuration checks *)

Lemma Qle_bool_false_iff x y : Qle_bool x y = false <-> (y < x)%Q.
Proof.
  rewrite <- Qlt_bool_iff. unfold Qlt_bool.
  destruct (Qle_bool x y); simpl; split; congruence.
Qed.

Lemma Qlt_bool_false_iff x y : Qlt_bool x y = false <-> (y <= x)%Q.
Proof.
  unfold Qlt_bool. rewrite negb_false_iff. apply Qle_bool_iff.
Qed.

(** On finite heights: which settings pass, and which error each of the
    others meets. *)
Lemma validate_finite_cases (s : Settings) :
  (validate s = None <->
   truthy_str (mac_address s) = true /\
   (sit_height s < stand_height s)%Q /\
   (inject_Z BASE_HEIGHT <= sit_height s)%Q /\
   (stand_height s <= inject_Z MAX_HEIGHT)%Q) /\
  (validate s = Some MacAddressMissing <->
   truthy_str (mac_address s) = false) /\
  (validate s = Some SitNotBelowStand <->
   truthy_str (mac_address s) = true /\
   (stand_height s <= sit_height s)%Q) /\
  (validate s = Some SitBelowBase <->
   truthy_str (mac_address s) = true /\
   (sit_height s < stand_height s)%Q /\
   (sit_height s < inject_Z BASE_HEIGHT)%Q) /\
  (validate s = Some StandAboveMax <->
   truthy_str (mac_address s) = true /\
   (sit_height s < stand_height s)%Q /\
   (inject_Z BASE_HEIGHT <= sit_height s)%Q /\
   (inject_Z MAX_HEIGHT < stand_height s)%Q).
Proof.
  unfold validate.
  destruct (truthy_str (mac_address s)); cbn [negb].
  2: { repeat split; intros; try discriminate; try tauto;
       match goal with H : _ /\ _ |- _ => destruct H; discriminate end. }
  destruct (Qle_bool (stand_height s) (sit_height s)) eqn:Hsit.
  { apply Qle_bool_iff in Hsit.
    repeat split; intros; try discriminate; try tauto;
      match goal with
      | H : _ /\ _ |- _ =>
          destruct H as (_ & Hlt & _); exfalso;
          apply (Qlt_not_le _ _ Hlt Hsit)
      end. }
  apply Qle_bool_false_iff in Hsit.
  destruct (Qlt_bool (sit_height s) (inject_Z BASE_HEIGHT)) eqn:Hbase.
  { apply Qlt_bool_iff in Hbase.
    repeat split; intros; try discriminate; try tauto;
      match goal with
      | H : _ /\ _ |- _ =>
          first [ destruct H as (_ & _ & Hle & _); exfalso;
                  apply (Qlt_not_le _ _ Hbase Hle)
                | destruct H as (_ & Hle); exfalso;
                  apply (Qlt_not_le _ _ Hsit Hle) ]
      end. }
  apply Qlt_bool_false_iff in Hbase.
  destruct (Qlt_bool (inject_Z MAX_HEIGHT) (stand_height s)) eqn:Hmax.
  { apply Qlt_bool_iff in Hmax.
    repeat split; intros; try discriminate; try tauto;
      match goal with
      | H : _ /\ _ |- _ =>
          first [ destruct H as (_ & _ & _ & Hle); exfalso;
                  apply (Qlt_not_le _ _ Hmax Hle)
                | destruct H as (_ & _ & Hlt); exfalso;
                  apply (Qlt_not_le _ _ Hlt Hbase)
                | destruct H as (_ & Hle); exfalso;
                  apply (Qlt_not_le _ _ Hsit Hle) ]
      end. }
  apply Qlt_bool_false_iff in Hmax.
  repeat split; intros; try discriminate; try tauto;
    match goal with
    | H : _ /\ _ |- _ =>
        first [ destruct H as (_ & _ & _ & Hlt); exfalso;
                apply (Qlt_not_le _ _ Hlt Hmax)
              | destruct H as (_ & _ & Hlt); exfalso;
                apply (Qlt_not_le _ _ Hlt Hbase)
              | destruct H as (_ & Hle); exfalso;
                apply (Qlt_not_le _ _ Hsit Hle) ]
    end.
Qed.

Lemma validate_checks (s : Settings) :
  validate s =
  checks (mac_address s) (Finite (sit_height s)) (Finite (stand_height s)).
Proof. reflexivity. Qed.

(** X3.  On heights that are [int]s or finite [float]s, the configuration
    checks of lines 112-122 accept exactly the settings with a mac address
    and [620 <= sit_height < stand_height <= 1270], both bounds included,
    and each error is reported exactly when its own check fails and every
    earlier check has passed.  A [nan] height is not refused: with a mac
    address, a [nan] sit height passes with any finite stand height up to
    1270, a [nan] stand height with any finite sit height from 620, and two
    [nan]s pass.  An infinite height passes only beside a [nan]. *)
Theorem validate_cases :
  (forall s : Settings,
      validate s =
      checks (mac_address s) (Finite (sit_height s))
        (Finite (stand_height s))) /\
  (forall s : Settings,
      (validate s = None <->
       truthy_str (mac_address s) = true /\
       (sit_height s < stand_height s)%Q /\
       (inject_Z BASE_HEIGHT <= sit_height s)%Q /\
       (stand_height s <= inject_Z MAX_HEIGHT)%Q) /\
      (validate s = Some MacAddressMissing <->
       truthy_str (mac_address s) = false) /\
      (validate s = Some SitNotBelowStand <->
       truthy_str (mac_address s) = true /\
       (stand_height s <= sit_height s)%Q) /\
      (validate s = Some SitBelowBase <->
       truthy_str (mac_address s) = true /\
       (sit_height s < stand_height s)%Q /\
       (sit_height s < inject_Z BASE_HEIGHT)%Q) /\
      (validate s = Some StandAboveMax <->
       truthy_str (mac_address s) = true /\
       (sit_height s < stand_height s)%Q /\
       (inject_Z BASE_HEIGHT <= sit_height s)%Q /\
       (inject_Z MAX_HEIGHT < stand_height s)%Q)) /\
  (forall mac (standing : Q),
      truthy_str mac = true ->
      (checks mac NaN (Finite standing) = None <->
       (standing <= inject_Z MAX_HEIGHT)%Q)) /\
  (forall mac (sitting : Q),
      truthy_str mac = true ->
      (checks mac (Finite sitting) NaN = None <->
       (inject_Z BASE_HEIGHT <= sitting)%Q)) /\
  (forall mac, truthy_str mac = true -> checks mac NaN NaN = None) /\
  (forall mac sitting standing,
      checks mac sitting standing = None ->
      (sitting = PlusInfinity -> standing = NaN) /\
      sitting <> MinusInfinity /\
      (standing = MinusInfinity -> sitting = NaN) /\
      standing <> PlusInfinity).
Proof.
  split; [exact validate_checks |].
  split; [exact validate_finite_cases |].
  split; [| split; [| split]].
  - intros mac standing Hmac. unfold checks, number_gt. rewrite Hmac.
    cbn [negb number_ge number_lt].
    destruct (Qlt_bool (inject_Z MAX_HEIGHT) standing) eqn:Hmax.
    + apply Qlt_bool_iff in Hmax. split; [discriminate |].
      intros Hle. exfalso. apply (Qlt_not_le _ _ Hmax Hle).
    + apply Qlt_bool_false_iff in Hmax. split; [intros _; exact Hmax | auto].
  - intros mac sitting Hmac. unfold checks, number_gt. rewrite Hmac.
    cbn [negb number_ge number_lt].
    destruct (Qlt_bool sitting (inject_Z BASE_HEIGHT)) eqn:Hbase.
    + apply Qlt_bool_iff in Hbase. split; [discriminate |].
      intros Hle. exfalso. apply (Qlt_not_le _ _ Hbase Hle).
    + apply Qlt_bool_false_iff in Hbase.
      split; [intros _; exact Hbase | auto].
  - intros mac Hmac. unfold checks. rewrite Hmac. reflexivity.
  - intros mac sitting standing. unfold checks, number_gt.
    destruct (truthy_str mac); cbn [negb]; [| discriminate].
    destruct sitting as [p | | |], standing as [q | | |];
      cbn [number_ge number_lt]; try discriminate;
      repeat match goal with
        | |- context [if ?c then _ else _] => destruct c
        end;
      try discriminate; intros _;
      repeat split; try discriminate; try reflexivity.
Qed.

(** X4.  For whole-millimetre sit and stand heights, as the defaults and
    the command line give them, that pass the checks: the raw targets of
    lines 124-125 are the integers [(mm - 620) * 10], with
    [0 <= sit_height_raw < stand_height_raw <= 6500], and [rawToMM],
    evaluated in binary64 as the interpreter does, gives back the configured
    heights exactly. *)
Theorem derived_targets_in_range (s : Settings) (sitting standing : Z) :
  (sit_height s == inject_Z sitting)%Q ->
  (stand_height s == inject_Z standing)%Q ->
  validate s = None ->
  (sit_height_raw (derive s) == inject_Z ((sitting - BASE_HEIGHT) * 10))%Q /\
  (stand_height_raw (derive s)
   == inject_Z ((standing - BASE_HEIGHT) * 10))%Q /\
  0 <= (sitting - BASE_HEIGHT) * 10 < (standing - BASE_HEIGHT) * 10 /\
  (standing - BASE_HEIGHT) * 10 <= 6500 /\
  b64_eqb (rawToMM_b64 (b64_of_Z ((sitting - BASE_HEIGHT) * 10)))
    (b64_of_Z sitting) = true /\
  b64_eqb (rawToMM_b64 (b64_of_Z ((standing - BASE_HEIGHT) * 10)))
    (b64_of_Z standing) = true.
Proof.
  intros Hsit Hstand Hvalid. apply validate_None in Hvalid.
  destruct Hvalid as (_ & Hlt & Hbase & Hmax).
  apply Qle_bool_false_iff in Hlt.
  apply Qlt_bool_false_iff in Hbase. apply Qlt_bool_false_iff in Hmax.
  rewrite Hsit, Hstand in Hlt. rewrite Hsit in Hbase. rewrite Hstand in Hmax.
  rewrite <- Zlt_Qlt in Hlt. rewrite <- Zle_Qle in Hbase, Hmax.
  cbn [derive sit_height_raw stand_height_raw]. unfold mmToRaw.
  rewrite Hsit, Hstand.
  split; [| split].
  - rewrite inject_Z_mult. unfold Z.sub.
    rewrite inject_Z_plus, inject_Z_opp. reflexivity.
  - rewrite inject_Z_mult. unfold Z.sub.
    rewrite inject_Z_plus, inject_Z_opp. reflexivity.
  - unfold BASE_HEIGHT, MAX_HEIGHT in *.
    split; [lia |]. split; [lia |].
    split; apply whole_millimetres_round_trip;
      unfold BASE_HEIGHT, MAX_HEIGHT; lia.
Qed.

Lemma derived_targets_in_range_witness :
  (sit_height_raw (derive sample_settings) == inject_Z 630)%Q /\
  (stand_height_raw (derive sample_settings) == inject_Z 4200)%Q /\
  b64_eqb (rawToMM_b64 (b64_of_Z 630)) (b64_of_Z 683) = true /\
  b64_eqb (rawToMM_b64 (b64_of_Z 4200)) (b64_of_Z 1040) = true.
Proof.
  destruct (derived_targets_in_range sample_settings 683 1040)
    as (Hsit & Hstand & _ & _ & Hback & Hback');
    [reflexivity | reflexivity | reflexivity |].
  repeat split; assumption.
Defined.

(* ------------------------------------------------------------------ *)
(** ** Finding the desk *)

Lemma has_address_iff mac device :
  has_address mac device = true <-> mac = Some (address device).
Proof.
  unfold has_address. destruct mac as [a |].
  - rewrite String.eqb_eq. split; [intros -> | intros [= ->]]; reflexivity.
  - split; discriminate.
Qed.

Lemma find_first {A} (f : A -> bool) (l : list A) (x : A) :
  find f l = Some x ->
  exists before after,
    l = before ++ x :: after /\ f x = true /\
    forall y, In y before -> f y = false.
Proof.
  induction l as [| a l IH]; [discriminate |].
  cbn [find]. destruct (f a) eqn:Ha.
  - intros [= ->]. exists [], l. repeat split; auto. intros y [].
  - intros Hfind. destruct (IH Hfind) as (before & after & -> & Hx & Hnone).
    exists (a :: before), after. repeat split; auto.
    intros y [<- | Hin]; auto.
Qed.

(** X5.  The desk that lines 292-296 settle on always carries the configured
    mac address.  It comes either from [desk.pickle], with no request made
    and never on Windows, or from a scan, among the discovered devices. *)
Theorem found_desk_has_address os config desk_pickle discovered w desk w' :
  find_desk os config desk_pickle discovered w = (Ok (Some desk), w') ->
  mac_address config = Some (address desk) /\
  ((log w' = log w /\ desk_pickle = Some desk /\ IS_WINDOWS os = false) \/
   (log w' = log w ++ [Print MsgScanning; Discover; Print MsgDeskFound] /\
    exists devices, discovered = inr devices /\ In desk devices)).
Proof.
  unfold find_desk, unpickle_desk.
  destruct (IS_WINDOWS os) eqn:Hos; cbn [negb].
  2: destruct desk_pickle as [cached |].
  2: destruct (has_address (mac_address config) cached) eqn:Hcached.
  2: { intros [= -> <-]. split; [apply has_address_iff; exact Hcached |].
       left. auto. }
  all: unfold scan, bind, print, record;
    destruct discovered as [e | devices]; [discriminate |];
    destruct (truthy_str (mac_address config)); cbn [negb];
    [| destruct devices; discriminate];
    destruct (find (has_address (mac_address config)) devices) as [found |]
      eqn:Hfind; [| discriminate];
    unfold ret; intros [= -> <-];
    destruct (find_first _ _ _ Hfind) as (before & after & -> & Hfound & _);
    (split; [apply has_address_iff; exact Hfound |]);
    right; cbn [log]; rewrite <- !app_assoc; cbn [app];
    (split; [reflexivity |]);
    exists (before ++ desk :: after); (split; [reflexivity |]);
    apply in_elt.
Qed.

(** X6.  [scan] with a mac address returns the first discovered device
    whose address equals it, printing that the desk was found; when no
    discovered device has that address it returns [None], printing that the
    desk was not found. *)
Theorem scan_finds_first_match discovered (m : string) devices w :
  discovered = inr devices ->
  m <> EmptyString ->
  (exists desk before after,
      scan discovered (Some m) w =
      (Ok (Device desk),
       logged [Print MsgScanning; Discover; Print MsgDeskFound] w) /\
      devices = before ++ desk :: after /\
      address desk = m /\
      forall other, In other before -> address other <> m) \/
  (scan discovered (Some m) w =
   (Ok NoDevice,
    logged [Print MsgScanning; Discover; Print MsgDeskNotFound] w) /\
   forall other, In other devices -> address other <> m).
Proof.
  intros Hfound Hmac.
  assert (Htruthy : truthy_str (Some m) = true).
  { cbn [truthy_str]. apply negb_true_iff. apply String.eqb_neq. exact Hmac. }
  unfold scan, bind, print, record, ret. rewrite Hfound, Htruthy.
  cbn [negb stop_flag count client_set tasks log].
  destruct (find (has_address (Some m)) devices) as [desk |] eqn:Hfind.
  - left. destruct (find_first _ _ _ Hfind)
      as (before & after & Hsplit & Hdesk & Hnone).
    exists desk, before, after. unfold logged.
    cbn [stop_flag count client_set tasks log].
    rewrite <- !app_assoc. cbn [app].
    split; [reflexivity |]. split; [exact Hsplit |]. split.
    + apply has_address_iff in Hdesk. congruence.
    + intros other Hin Heq. specialize (Hnone other Hin).
      assert (has_address (Some m) other = true)
        by (apply has_address_iff; congruence).
      congruence.
  - right. unfold logged. cbn [stop_flag count client_set tasks log].
    rewrite <- !app_assoc. cbn [app]. split; [reflexivity |].
    intros other Hin Heq.
    pose proof (find_none _ _ Hfind other Hin) as Hno.
    assert (has_address (Some m) other = true)
      by (apply has_address_iff; congruence).
    congruence.
Qed.

(* ------------------------------------------------------------------ *)
(** ** What the script asks of the outside *)

(** [logs_only P] holds of the operations of the monad, and so of every
    function of the script for a [P] that allows what the function asks. *)
Section LogsOnly.

Variable P : action -> Prop.

Lemma logs_silent A (c : M A) :
  (forall w, snd (c w) = w) -> logs_only P c.
Proof.
  intros Hc w Hidle. rewrite Hc. split; [exact Hidle |].
  exists []. rewrite app_nil_r. split; [reflexivity | constructor].
Qed.

Lemma logs_ret A (a : A) : logs_only P (ret a).
Proof. apply logs_silent. reflexivity. Qed.

Lemma logs_raise A e : logs_only P (@raise A e).
Proof. apply logs_silent. reflexivity. Qed.

Lemma logs_pending A : logs_only P (@pending A).
Proof. apply logs_silent. reflexivity. Qed.

Lemma logs_os_exit A n : logs_only P (@os_exit A n).
Proof. apply logs_silent. reflexivity. Qed.

Lemma logs_get_count : logs_only P get_count.
Proof. apply logs_silent. reflexivity. Qed.

Lemma logs_get_client_set : logs_only P get_client_set.
Proof. apply logs_silent. reflexivity. Qed.

Lemma logs_asked_to_stop : logs_only P asked_to_stop.
Proof. apply logs_silent. reflexivity. Qed.

Lemma logs_await answer : logs_only P (await answer).
Proof. apply logs_silent. destruct answer; reflexivity. Qed.

Lemma logs_unpack data : logs_only P (unpack data).
Proof.
  apply logs_silent. unfold unpack. destruct (unpack_Hh data); reflexivity.
Qed.

Lemma logs_quiet A (c : M A) :
  (forall w, tasks (snd (c w)) = tasks w /\ log (snd (c w)) = log w) ->
  logs_only P c.
Proof.
  intros Hc w Hidle. destruct (Hc w) as [Htasks Hlog].
  rewrite Htasks, Hlog. split; [exact Hidle |].
  exists []. rewrite app_nil_r. split; [reflexivity | constructor].
Qed.

Lemma logs_set_count n : logs_only P (set_count n).
Proof. apply logs_quiet. intros w. split; reflexivity. Qed.

Lemma logs_set_client : logs_only P set_client.
Proof. apply logs_quiet. intros w. split; reflexivity. Qed.

Lemma logs_ask_to_stop : logs_only P ask_to_stop.
Proof. apply logs_quiet. intros w. split; reflexivity. Qed.

Lemma logs_take_tasks : logs_only P take_tasks.
Proof.
  intros w Hidle. split; [reflexivity |].
  exists []. rewrite app_nil_r. split; [reflexivity | constructor].
Qed.

Lemma logs_record a : P a -> logs_only P (record a).
Proof.
  intros Ha w Hidle. split; [exact Hidle |].
  exists [a]. split; [reflexivity | repeat constructor; exact Ha].
Qed.

Lemma logs_print m : P (Print m) -> logs_only P (print m).
Proof. apply logs_record. Qed.

Lemma logs_bind A B (c : M A) (k : A -> M B) :
  logs_only P c -> (forall a, logs_only P (k a)) -> logs_only P (bind c k).
Proof.
  intros Hc Hk w Hidle. unfold bind.
  destruct (Hc w Hidle) as (Hidle' & rest & Hlog & Hrest).
  destruct (c w) as [[a | e | n |] w']; cbn [snd] in *;
    try (split; [exact Hidle' | exists rest; split; assumption]).
  destruct (Hk a w' Hidle') as (Hidle'' & rest' & Hlog' & Hrest').
  split; [exact Hidle'' |]. exists (rest ++ rest').
  rewrite Hlog', Hlog, app_assoc. split; [reflexivity |].
  apply Forall_app. split; assumption.
Qed.

Lemma logs_try_except A (c : M A) handles h :
  logs_only P c -> (forall e, logs_only P (h e)) ->
  logs_only P (try_except c handles h).
Proof.
  intros Hc Hh w Hidle. unfold try_except.
  destruct (Hc w Hidle) as (Hidle' & rest & Hlog & Hrest).
  destruct (c w) as [[a | e | n |] w']; cbn [snd] in *;
    try (split; [exact Hidle' | exists rest; split; assumption]).
  destruct (handles e);
    [| split; [exact Hidle' | exists rest; split; assumption]].
  destruct (Hh e w' Hidle') as (Hidle'' & rest' & Hlog' & Hrest').
  split; [exact Hidle'' |]. exists (rest ++ rest').
  rewrite Hlog', Hlog, app_assoc. split; [reflexivity |].
  apply Forall_app. split; assumption.
Qed.

Lemma logs_detached (c : M unit) : logs_only P c -> logs_only P (detached c).
Proof.
  intros Hc w Hidle. unfold detached.
  destruct (Hc w Hidle) as (Hidle' & rest & Hlog & Hrest).
  destruct (c w) as [[a | e | n |] w']; cbn [snd] in *;
    split; try exact Hidle'; exists rest; split; assumption.
Qed.

Lemma logs_send client a : P a -> logs_only P (send client a).
Proof.
  intros Ha w Hidle. split; [exact Hidle |].
  exists [a]. split; [reflexivity | repeat constructor; exact Ha].
Qed.

Lemma logs_call client a : P a -> logs_only P (call client a).
Proof.
  intros Ha. unfold call. apply logs_bind; [apply logs_send; exact Ha |].
  intros answer. apply logs_await.
Qed.

Lemma logs_read_gatt_char client u :
  P (ReadGattChar u) -> logs_only P (read_gatt_char client u).
Proof.
  intros Ha w Hidle. rewrite read_gatt_char_spec. split; [exact Hidle |].
  exists [ReadGattChar u]. split; [reflexivity | repeat constructor; exact Ha].
Qed.

End LogsOnly.

Create HintDb logs discriminated.

#[export] Hint Resolve logs_ret logs_raise logs_pending logs_os_exit
  logs_get_count logs_get_client_set logs_asked_to_stop logs_await
  logs_unpack logs_set_count logs_set_client logs_ask_to_stop
  logs_take_tasks logs_record logs_print logs_bind logs_try_except
  logs_detached logs_send logs_call logs_read_gatt_char : logs.

Ltac logs :=
  repeat first
    [ progress intros
    | solve [auto with logs]
    | match goal with
      | |- logs_only _ (if ?b then _ else _) => destruct b
      | |- logs_only _ (match ?x with _ => _ end) => destruct x
      | |- logs_only _ (let '(_, _) := ?x in _) => destruct x
      end
    | apply logs_bind
    | apply logs_try_except
    | apply logs_detached ].

(** The movement controller. *)
Section LogsOnlyScript.

Variable os : os_name.
Variable config : Config.
Variable client : BleakClient.
Variable desk_pickle : option BLEDevice.
Variable discovered : exn + list BLEDevice.
Variable pickle_dump_answer : option exn.
Variable P : action -> Prop.
Hypothesis P_print : forall m, P (Print m).
Hypothesis P_notify :
  P (StartNotify UUID_HEIGHT) /\ P (StopNotify UUID_HEIGHT).

Lemma logs_stop_notify_height : logs_only P (stop_notify client UUID_HEIGHT).
Proof. unfold stop_notify. apply logs_call. apply P_notify. Qed.

Lemma logs_start_notify_height :
  logs_only P (start_notify client UUID_HEIGHT).
Proof. unfold start_notify. apply logs_call. apply P_notify. Qed.

Lemma logs_disconnect_callback : logs_only P disconnect_callback.
Proof. unfold disconnect_callback. logs. Qed.

Lemma logs_deliver_print_height_data data :
  logs_only P (deliver os client print_height_data data).
Proof.
  intros [flag n connected waiting requests] Hidle.
  cbn [tasks] in Hidle. subst waiting.
  unfold deliver, bind, detached, print_height_data, unpack.
  destruct (unpack_Hh data) as [[height speed] |]; cbn.
  - split; [reflexivity |]. eexists. split; [reflexivity |].
    repeat constructor. apply P_print.
  - split; [reflexivity |]. exists []. rewrite app_nil_r.
    split; [reflexivity | constructor].
Qed.

#[local] Hint Resolve logs_stop_notify_height logs_start_notify_height
  logs_disconnect_callback P_print : logs.

Lemma logs_sleeping callback events :
  (forall data, logs_only P (deliver os client callback data)) ->
  logs_only P (sleeping os client UUID_HEIGHT callback events).
Proof.
  intros Hcb. induction events as [| ev events IH]; cbn [sleeping]; logs.
Qed.

Lemma logs_polling callback events :
  (forall data, logs_only P (deliver os client callback data)) ->
  logs_only P (polling os client UUID_HEIGHT callback events).
Proof.
  intros Hcb. unfold polling. pose proof (logs_sleeping callback events Hcb).
  logs.
Qed.

Lemma logs_subscribe callback events :
  (forall data, logs_only P (deliver os client callback data)) ->
  logs_only P (subscribe os client UUID_HEIGHT callback events).
Proof.
  intros Hcb. unfold subscribe.
  pose proof (logs_polling callback events Hcb). logs.
Qed.

Hypothesis P_move : forall d a, move_action os d a -> P a.

Lemma task_requests_CoStop_actions d history :
  Forall (move_action os d) (task_requests os client history CoStop).
Proof.
  unfold task_requests.
  destruct (answers client history STOP_REQUEST);
    [| destruct (IS_LINUX os) eqn:Hos];
    repeat (apply Forall_cons; [unfold move_action; auto 6 |]);
    apply Forall_nil.
Qed.

Lemma logs_deliver__move_to target d data :
  logs_only P (deliver os client (_move_to config target d) data).
Proof.
  intros w Hidle.
  destruct (unpack_Hh data) as [[height speed] |] eqn:Hdata.
  - destruct (has_reached_target config (inject_Z height) target) eqn:Hnear.
    + rewrite (deliver_reached os config client target d data height speed w
                 Hidle Hdata Hnear).
      projections. split; [reflexivity |]. eexists. split; [reflexivity |].
      apply Forall_cons; [apply P_print |].
      eapply Forall_impl; [apply (P_move d) |].
      apply task_requests_CoStop_actions.
    + rewrite (deliver_not_reached os config client target d data height
                 speed w Hidle Hdata Hnear).
      projections. split; [reflexivity |]. eexists. split; [reflexivity |].
      apply Forall_cons; [apply P_print |].
      destruct (count w + 1 =? 6); [| apply Forall_nil].
      apply Forall_cons; [| apply Forall_nil].
      apply (P_move d). left. reflexivity.
  - rewrite (deliver_malformed os config client target d data w Hidle Hdata).
    split; [exact Hidle |]. exists []. rewrite app_nil_r.
    split; [reflexivity | apply Forall_nil].
Qed.

Lemma logs_gather target d events :
  logs_only P (gather os config client target d events).
Proof.
  unfold gather.
  pose proof (logs_polling (_move_to config target d) events
                (logs_deliver__move_to target d)).
  assert (P (move_request d)) by (apply (P_move d); left; reflexivity).
  assert (P (StartNotify UUID_HEIGHT)) by apply P_notify.
  logs.
Qed.

Hypothesis P_read : P (ReadGattChar UUID_HEIGHT).

Lemma logs_move_to target events :
  logs_only P (move_to os config client target events).
Proof.
  unfold move_to.
  pose proof (fun d => logs_gather target d events).
  logs.
Qed.

End LogsOnlyScript.

(** Discovery, connection and the top level. *)
Section LogsOnlyTopLevel.

Variable os : os_name.
Variable config : Config.
Variable client : BleakClient.
Variable desk_pickle : option BLEDevice.
Variable discovered : exn + list BLEDevice.
Variable pickle_dump_answer : option exn.
Variable P : action -> Prop.
Hypothesis P_print : forall m, P (Print m).
Hypothesis P_notify :
  P (StartNotify UUID_HEIGHT) /\ P (StopNotify UUID_HEIGHT).
Hypothesis P_read : P (ReadGattChar UUID_HEIGHT).
Hypothesis P_move : forall d a, move_action os d a -> P a.
Hypothesis P_discover : P Discover.
Hypothesis P_pickle : IS_WINDOWS os = false -> P PickleDump.

Lemma logs_pickle_desk desk :
  logs_only P (pickle_desk os pickle_dump_answer desk).
Proof.
  unfold pickle_desk.
  destruct (IS_WINDOWS os); cbn [negb]; [logs |].
  pose proof (P_pickle eq_refl). logs.
Qed.

Lemma logs_scan mac : logs_only P (scan discovered mac).
Proof.
  unfold scan. pose proof P_discover. logs.
Qed.

Lemma logs_print_devices devices : logs_only P (print_devices devices).
Proof.
  induction devices as [| device devices IH]; cbn [print_devices]; logs.
Qed.

#[local] Hint Resolve logs_pickle_desk logs_scan logs_print_devices P_print
  : logs.

Lemma logs_find_desk :
  logs_only P (find_desk os config desk_pickle discovered).
Proof. unfold find_desk. logs. Qed.

Hypothesis P_connect : P Connect.

Lemma logs_connect desk : logs_only P (connect client desk).
Proof. unfold connect. pose proof P_connect. logs. Qed.

#[local] Hint Resolve logs_connect : logs.

Lemma logs_operate events : logs_only P (operate os config client events).
Proof.
  unfold operate.
  pose proof (fun evs =>
                logs_subscribe os client P P_print P_notify print_height_data
                  evs (logs_deliver_print_height_data os client P P_print)).
  pose proof (fun target =>
                logs_move_to os config client P P_print P_notify P_move
                  P_read target events).
  logs.
Qed.

#[local] Hint Resolve logs_find_desk logs_operate : logs.

Lemma logs_session desk events :
  logs_only P (session os config client pickle_dump_answer desk events).
Proof.
  unfold session. pose proof P_read. logs.
Qed.

#[local] Hint Resolve logs_session : logs.

Lemma logs_run_body events :
  logs_only P (run_body os config client desk_pickle discovered
                 pickle_dump_answer events).
Proof. unfold run_body. logs. Qed.

#[local] Hint Resolve logs_run_body : logs.

Lemma logs_run events :
  logs_only P (run os config client desk_pickle discovered
                 pickle_dump_answer events).
Proof. unfold run. logs. Qed.

#[local] Hint Resolve logs_run : logs.

Hypothesis P_disconnect : P Disconnect.

Lemma logs_main events :
  logs_only P (main os config client desk_pickle discovered
                 pickle_dump_answer events).
Proof. unfold main. logs. Qed.

End LogsOnlyTopLevel.

Lemma move_action_script_request os d a :
  move_action os d a -> script_request os a.
Proof.
  intros [-> | [-> | [[Hos ->] | [-> | [m ->]]]]]; cbn.
  - destruct d; cbn; auto.
  - auto.
  - split; [exact Hos | reflexivity].
  - reflexivity.
  - exact I.
Qed.

(** X7.  Whatever the outside answers, the whole script only ever reads and
    subscribes to the Height characteristic, writes nothing to it, writes
    only the Up, Down and Stop codes to the Command characteristic, writes
    the Reference Input characteristic only on Linux and only with its Stop
    code, and writes [desk.pickle] only off Windows. *)
Theorem script_requests os config client desk_pickle discovered
  pickle_dump_answer events w :
  tasks w = [] ->
  exists rest,
    log (snd (main os config client desk_pickle discovered
                pickle_dump_answer events w)) = log w ++ rest /\
    Forall (script_request os) rest.
Proof.
  intros Hidle.
  apply (logs_main os config client desk_pickle discovered
           pickle_dump_answer (script_request os)); try exact Hidle.
  - intros m. exact I.
  - repeat split.
  - reflexivity.
  - apply move_action_script_request.
  - exact I.
  - intros Hos. exact Hos.
  - exact I.
  - exact I.
Qed.

Lemma monitor_request_print m : monitor_request (Print m).
Proof. exact I. Qed.

(** X8.  With [--monitor] the chosen operation writes no characteristic and
    reads none: it only starts and stops the Height notifications and
    prints. *)
Theorem monitor_never_writes os (config : Config) client events w :
  tasks w = [] ->
  monitor config = true ->
  exists rest,
    log (snd (operate os config client events w)) = log w ++ rest /\
    Forall monitor_request rest.
Proof.
  intros Hidle Hmonitor. unfold operate. rewrite Hmonitor.
  assert (Hsub : logs_only monitor_request
                   (subscribe os client UUID_HEIGHT print_height_data
                      (filter (fun ev => negb (is_Deadline ev)) events))).
  { apply logs_subscribe.
    - exact monitor_request_print.
    - repeat split.
    - intros data. apply logs_deliver_print_height_data.
      exact monitor_request_print. }
  assert (Hall : logs_only monitor_request
                   (subscribe os client UUID_HEIGHT print_height_data
                      (filter (fun ev => negb (is_Deadline ev)) events) ;;
                    ret (@None Q))).
  { apply logs_bind; [exact Hsub |]. intros []. apply logs_ret. }
  apply (Hall w Hidle).
Qed.

(* ------------------------------------------------------------------ *)
(** ** A move that converges, and one that is interrupted *)


Lemma commands_task_requests os client history c :
  commands (task_requests os client history c) =
  task_requests os client history c.
Proof.
  destruct c; cbn; try reflexivity.
  destruct (answers client history STOP_REQUEST); [| destruct (IS_LINUX os)];
    reflexivity.
Qed.

(** With the stop flag set, the loop goes on serving notifications until
    its sleep has elapsed. *)
Section AfterConvergence.

Variable os : os_name.
Variable config : Config.
Variable client : BleakClient.
Variable target : Q.
Variable d : direction.

Local Abbreviation loop :=
  (sleeping os client UUID_HEIGHT (_move_to config target d)).


Lemma sleeping_calm within :
  forall w,
    forallb (calm config target) within = true ->
    tasks w = [] ->
    exists w1 mid,
      (forall rest, loop (within ++ rest) w = loop rest w1) /\
      stop_flag w1 = stop_flag w /\ tasks w1 = [] /\
      log w1 = log w ++ mid /\ Forall (progress d) mid.
Proof.
  induction within as [| ev within IH]; intros w Hwithin Hidle.
  - exists w, []. rewrite app_nil_r. repeat split; auto.
  - cbn [forallb] in Hwithin. apply andb_true_iff in Hwithin.
    destruct Hwithin as [Hev Hwithin]. unfold calm in Hev.
    apply andb_true_iff in Hev. destruct Hev as [Hquiet Hbetween].
    destruct ev as [data | | | |]; try discriminate.
    cbn [quiet] in Hquiet.
    destruct (unpack_Hh data) as [[height speed] |] eqn:Hdata.
    + apply negb_true_iff in Hquiet.
      pose proof (deliver_not_reached os config client target d data
                    height speed w Hidle Hdata Hquiet) as Hdeliver.
      match type of Hdeliver with _ = (_, ?W) => set (w' := W) in * end.
      destruct (IH w' Hwithin eq_refl)
        as (w1 & mid & Hloop & Hflag1 & Hidle1 & Hlog1 & Hmid).
      exists w1, (Print (MsgProgress height target speed)
                  :: (if count w + 1 =? 6 then [move_request d] else [])
                  ++ mid).
      repeat split; auto.
      * intros rest. cbn [app].
        rewrite (sleeping_Notification _ _ _ _ _ _ _ _ Hdeliver).
        apply Hloop.
      * rewrite Hlog1. subst w'. projections.
        rewrite <- app_assoc. reflexivity.
      * constructor; [right; eexists; reflexivity |].
        apply Forall_app. split; [| exact Hmid].
        destruct (count w + 1 =? 6); constructor; [left; reflexivity |].
        constructor.
    + pose proof (deliver_malformed os config client target d data w
                    Hidle Hdata) as Hdeliver.
      destruct (IH w Hwithin Hidle) as (w1 & mid & Hloop & Hrest).
      exists w1, mid. split; [| exact Hrest].
      intros rest. cbn [app].
      rewrite (sleeping_Notification _ _ _ _ _ _ _ _ Hdeliver).
      apply Hloop.
Qed.

End AfterConvergence.

Lemma move_to_driving os config client target events w data initial_height
  speed :
  reads client (log w) UUID_HEIGHT = inr data ->
  unpack_Hh data = Some (initial_height, speed) ->
  has_reached_target config (inject_Z initial_height) target = false ->
  stop_flag w = false ->
  answers client (log w ++ [ReadGattChar UUID_HEIGHT])
    (StartNotify UUID_HEIGHT) = None ->
  answers client
    (log w ++ [ReadGattChar UUID_HEIGHT; StartNotify UUID_HEIGHT])
    (move_request (first_direction initial_height target)) = None ->
  move_to os config client target events w =
  try_except
    (sleeping os client UUID_HEIGHT
       (_move_to config target (first_direction initial_height target))
       events)
    is_TimeoutError (on_timeout client)
    (driving (first_direction initial_height target) w).
Proof.
  intros Hread Hdata Hfar Hflag Hstart Hmove.
  rewrite (move_to_spec os config client target _ w data initial_height
             speed Hread Hdata), Hfar.
  unfold try_except. rewrite gather_spec. cbv zeta.
  change (log (at_start w)) with (log w ++ [ReadGattChar UUID_HEIGHT]).
  rewrite Hstart. rewrite <- app_assoc. cbn [app]. rewrite Hmove.
  rewrite polling_spec.
  change (stop_flag (logged [StartNotify UUID_HEIGHT;
                             move_request
                               (first_direction initial_height target)]
                       (at_start w))) with (stop_flag w).
  rewrite Hflag. reflexivity.
Qed.




Lemma progress_not_stop d mid tail :
  Forall (progress d) mid ->
  ~ In STOP_REQUEST tail -> ~ In REFERENCE_STOP_REQUEST tail ->
  ~ In STOP_REQUEST (mid ++ tail) /\
  ~ In REFERENCE_STOP_REQUEST (mid ++ tail).
Proof.
  intros Hmid Hstop Href. rewrite Forall_forall in Hmid.
  split; intros Hin; apply in_app_or in Hin; destruct Hin as [Hin | Hin];
    try contradiction;
    destruct (Hmid _ Hin) as [Heq | [m Heq]];
    solve [destruct d; discriminate Heq | discriminate Heq].
Qed.

(** X10.  A move that a disconnection, or on Linux a signal, interrupts
    while the desk is notified only of heights outside the tolerance returns
    normally at the next elapsed sleep, having stopped the notifications
    (which is assumed to succeed); it writes no Stop code, to neither
    characteristic. *)
Theorem move_to_interrupted os config client target before ev within w data
  initial_height speed :
  reads client (log w) UUID_HEIGHT = inr data ->
  unpack_Hh data = Some (initial_height, speed) ->
  has_reached_target config (inject_Z initial_height) target = false ->
  stop_flag w = false ->
  tasks w = [] ->
  answers client (log w ++ [ReadGattChar UUID_HEIGHT])
    (StartNotify UUID_HEIGHT) = None ->
  answers client
    (log w ++ [ReadGattChar UUID_HEIGHT; StartNotify UUID_HEIGHT])
    (move_request (first_direction initial_height target)) = None ->
  (forall history, answers client history (StopNotify UUID_HEIGHT) = None) ->
  forallb (quiet config target) before = true ->
  interrupts os ev ->
  forallb (calm config target) within = true ->
  exists w' mid,
    (forall post,
        move_to os config client target
          (before ++ ev :: within ++ Tick :: post) w = (Ok tt, w')) /\
    stop_flag w' = true /\
    log w' = log w ++
             [ReadGattChar UUID_HEIGHT; StartNotify UUID_HEIGHT;
              move_request (first_direction initial_height target)]
             ++ mid ++ [StopNotify UUID_HEIGHT] /\
    Forall (progress (first_direction initial_height target)) mid /\
    ~ In STOP_REQUEST (mid ++ [StopNotify UUID_HEIGHT]) /\
    ~ In REFERENCE_STOP_REQUEST (mid ++ [StopNotify UUID_HEIGHT]).
Proof.
  intros Hread Hdata Hfar Hflag Hidle Hstart Hmove Hstop Hquiet Hev Hcalm.
  set (d := first_direction initial_height target) in *.
  assert (Hflag0 : stop_flag (driving d w) = false) by exact Hflag.
  assert (Hidle0 : tasks (driving d w) = []) by exact Hidle.
  destruct (sleeping_quiet os config client target d before (driving d w)
              Hquiet Hflag0 Hidle0)
    as (w1 & mid1 & Hloop1 & Hflag1 & Hidle1 & _ & Hlog1 & Hmid1).
  set (w2 := match ev with
             | Disconnected => after_disconnect w1
             | _ => stopped w1
             end).
  assert (Hstep : forall rest,
             sleeping os client UUID_HEIGHT (_move_to config target d)
               (ev :: rest) w1 =
             sleeping os client UUID_HEIGHT (_move_to config target d)
               rest w2).
  { intros rest. subst w2. destruct Hev as [-> | [-> Hos]].
    - apply sleeping_Disconnected.
    - rewrite sleeping_Signal, Hos. reflexivity. }
  assert (Hw2 : stop_flag w2 = true /\ tasks w2 = [] /\
                exists said, log w2 = log w1 ++ said /\
                             Forall (progress d) said).
  { subst w2. destruct Hev as [-> | [-> Hos]].
    - unfold after_disconnect. rewrite Hflag1.
      repeat split; [exact Hidle1 |].
      exists [Print MsgLostConnection]. split; [reflexivity |].
      constructor; [right; eexists; reflexivity | constructor].
    - repeat split; [exact Hidle1 |]. exists []. rewrite app_nil_r.
      split; [reflexivity | constructor]. }
  destruct Hw2 as (Hflag2 & Hidle2 & said & Hlog2 & Hsaid).
  destruct (sleeping_calm os config client target d within w2 Hcalm Hidle2)
    as (w3 & mid3 & Hloop3 & Hflag3 & _ & Hlog3 & Hmid3).
  rewrite Hflag2 in Hflag3.
  exists (logged [StopNotify UUID_HEIGHT] w3), (mid1 ++ said ++ mid3).
  assert (Hmid : Forall (progress d) (mid1 ++ said ++ mid3))
    by (repeat (apply Forall_app; split); assumption).
  split; [| split; [exact Hflag3 | split; [| split; [exact Hmid |]]]].
  - intros post.
    rewrite (move_to_driving os config client target _ w data initial_height
               speed Hread Hdata Hfar Hflag Hstart Hmove).
    fold d. unfold try_except.
    rewrite Hloop1, Hstep, Hloop3, sleeping_Tick, Hflag3.
    rewrite stop_notify_spec, Hstop. reflexivity.
  - unfold logged. projections. rewrite Hlog3, Hlog2, Hlog1.
    unfold driving, logged, at_start. projections.
    rewrite <- !app_assoc. reflexivity.
  - apply (progress_not_stop d); [exact Hmid | |];
      intros [Heq | []]; discriminate Heq.
Qed.

(** X11.  The callback stays subscribed until the next elapsed sleep: when,
    after the notification within tolerance, further notifications outside
    it bring the counter to 6 before that sleep has elapsed, the movement
    command is written once more, after the Stop code. *)
Theorem resend_after_convergence os config client target d near height speed
  fars w :
  tasks w = [] ->
  0 <= count w < 5 ->
  unpack_Hh near = Some (height, speed) ->
  has_reached_target config (inject_Z height) target = true ->
  forallb (far config target) fars = true ->
  count w + 1 + Z.of_nat (List.length fars) = 6 ->
  exists w1,
    (forall rest,
        sleeping os client UUID_HEIGHT (_move_to config target d)
          (Notification near :: map Notification fars ++ rest) w =
        sleeping os client UUID_HEIGHT (_move_to config target d) rest w1) /\
    stop_flag w1 = true /\
    count w1 = 0 /\
    commands (log w1) =
    commands (log w) ++
    task_requests os client
      (log w ++ [Print (MsgProgress height target speed)]) CoStop ++
    [move_request d].
Proof.
  intros Hidle Hcount Hnear Hreached Hfars Hsix.
  pose proof (deliver_reached os config client target d near height speed w
                Hidle Hnear Hreached) as Hdeliver.
  match type of Hdeliver with _ = (_, ?W) => set (w' := W) in * end.
  destruct (sleeping_resend os config client target d fars w' Hfars eq_refl)
    as (w1 & Hloop & Hcount1 & Hcommands & Hflag1 & _).
  { subst w'. projections. lia. }
  exists w1. subst w'.
  cbn [stop_flag count client_set tasks log] in Hcount1, Hcommands, Hflag1.
  rewrite Hsix in Hcount1, Hcommands.
  split; [| split; [exact Hflag1 | split; [exact Hcount1 |]]].
  - intros rest. cbn [app].
    rewrite (sleeping_Notification _ _ _ _ _ _ _ _ Hdeliver). apply Hloop.
  - rewrite Hcommands. change (Z.to_nat (6 / 6)) with 1%nat. cbn [repeat].
    rewrite commands_app. cbn [commands filter is_write].
    fold (commands (task_requests os client
                      (log w ++ [Print (MsgProgress height target speed)])
                      CoStop)).
    rewrite commands_task_requests, <- app_assoc. reflexivity.
Qed.

(* ------------------------------------------------------------------ *)
(** ** Returning from [subscribe] *)

(** The loop of [subscribe] returns only through [stop_notify], and only
    once the flag is set. *)
Section Returning.

Variable os : os_name.
Variable client : BleakClient.
Variable u : uuid.
Variable callback : bytes -> M unit.
Hypothesis callback_delivered :
  forall data w,
    tasks w = [] ->
    exists w' added,
      deliver os client callback data w = (Ok tt, w') /\
      tasks w' = [] /\ log w' = log w ++ added.

Lemma sleeping_returns events :
  forall w,
    tasks w = [] ->
    fst (sleeping os client u callback events w) = Ok tt ->
    stop_flag (snd (sleeping os client u callback events w)) = true /\
    exists mid,
      log (snd (sleeping os client u callback events w)) =
      log w ++ mid ++ [StopNotify u].
Proof.
  induction events as [| ev events IH]; intros w Hidle Hok.
  - discriminate Hok.
  - destruct ev as [data | | | |].
    + destruct (callback_delivered data w Hidle)
        as (w' & added & Hdeliver & Hidle' & Hlog).
      rewrite (sleeping_Notification _ _ _ _ _ _ _ _ Hdeliver) in *.
      destruct (IH w' Hidle' Hok) as (Hflag & mid & Hmid).
      split; [exact Hflag |]. exists (added ++ mid).
      rewrite Hmid, Hlog, <- !app_assoc. reflexivity.
    + rewrite sleeping_Tick in *. destruct (stop_flag w) eqn:Hflag.
      * rewrite stop_notify_spec. split; [exact Hflag |].
        exists []. reflexivity.
      * apply (IH w Hidle Hok).
    + rewrite sleeping_Disconnected in *.
      destruct (IH (after_disconnect w)) as (Hflag & mid & Hmid);
        [unfold after_disconnect; destruct (stop_flag w); exact Hidle
        | exact Hok |].
      split; [exact Hflag |]. rewrite Hmid. unfold after_disconnect.
      destruct (stop_flag w).
      * exists mid. reflexivity.
      * exists (Print MsgLostConnection :: mid).
        unfold stopped, logged. projections.
        rewrite <- app_assoc. reflexivity.
    + rewrite sleeping_Signal in *.
      destruct (IH (if IS_LINUX os then stopped w else w))
        as (Hflag & mid & Hmid);
        [destruct (IS_LINUX os); exact Hidle | exact Hok |].
      split; [exact Hflag |]. rewrite Hmid. exists mid.
      destruct (IS_LINUX os); reflexivity.
    + rewrite sleeping_Deadline in Hok. discriminate Hok.
Qed.

Lemma subscribe_spec events w :
  subscribe os client u callback events w =
  match answers client (log w) (StartNotify u) with
  | Some e => (Raise e, logged [StartNotify u] w)
  | None =>
      if stop_flag w then stop_notify client u (logged [StartNotify u] w)
      else sleeping os client u callback events (logged [StartNotify u] w)
  end.
Proof.
  unfold subscribe, bind, start_notify. rewrite call_spec.
  destruct (answers client (log w) (StartNotify u)); [reflexivity |].
  rewrite polling_spec. reflexivity.
Qed.

Lemma subscribe_returns events w :
  tasks w = [] ->
  fst (subscribe os client u callback events w) = Ok tt ->
  stop_flag (snd (subscribe os client u callback events w)) = true /\
  exists mid,
    log (snd (subscribe os client u callback events w)) =
    log w ++ StartNotify u :: mid ++ [StopNotify u].
Proof.
  intros Hidle. rewrite subscribe_spec.
  destruct (answers client (log w) (StartNotify u)); [discriminate |].
  destruct (stop_flag w) eqn:Hflag.
  - rewrite stop_notify_spec. intros _. split; [exact Hflag |].
    exists []. unfold logged. projections.
    rewrite <- app_assoc. reflexivity.
  - intros Hok.
    destruct (sleeping_returns events (logged [StartNotify u] w) Hidle Hok)
      as (Hstopped & mid & Hmid).
    split; [exact Hstopped |]. exists mid. rewrite Hmid.
    unfold logged. projections. rewrite <- app_assoc. reflexivity.
Qed.

End Returning.

(** X12.  [subscribe], with either callback, returns normally only with the
    stop flag set and with [stop_notify] as its last request, [start_notify]
    having been its first. *)
Theorem subscribe_returns_unsubscribed os config client target d u events w :
  tasks w = [] ->
  (fst (subscribe os client u print_height_data events w) = Ok tt ->
   stop_flag (snd (subscribe os client u print_height_data events w)) = true
   /\
   exists mid,
     log (snd (subscribe os client u print_height_data events w)) =
     log w ++ StartNotify u :: mid ++ [StopNotify u]) /\
  (fst (subscribe os client u (_move_to config target d) events w) = Ok tt ->
   stop_flag (snd (subscribe os client u (_move_to config target d) events
                     w)) = true /\
   exists mid,
     log (snd (subscribe os client u (_move_to config target d) events w)) =
     log w ++ StartNotify u :: mid ++ [StopNotify u]).
Proof.
  intros Hidle. split.
  - apply subscribe_returns; [| exact Hidle].
    intros data w' Hidle'.
    destruct (logs_deliver_print_height_data os client (fun _ => True)
                (fun _ => I) data w' Hidle')
      as (Hdone & added & Hlog & _).
    destruct (deliver_returns os client print_height_data
                (keeps_print_height_data)
                (detached_print_height_data_returns) data w')
      as (w'' & Hdeliver & _).
    rewrite Hdeliver in *. exists w'', added. auto.
  - apply subscribe_returns; [| exact Hidle].
    intros data w' Hidle'.
    destruct (deliver_trace os config client target d data w' Hidle')
      as (w'' & added & Hdeliver & Hdone & Hlog & _).
    exists w'', added. auto.
Qed.

(* ------------------------------------------------------------------ *)
(** ** Connecting and disconnecting *)

(** The global [client] is assigned by [run] alone, once [connect] has
    returned (line 301). *)
Create HintDb client discriminated.

Section KeepsClient.

Lemma client_ret A (a : A) : keeps_client (ret a).
Proof. intros w. reflexivity. Qed.

Lemma client_raise A e : keeps_client (@raise A e).
Proof. intros w. reflexivity. Qed.

Lemma client_pending A : keeps_client (@pending A).
Proof. intros w. reflexivity. Qed.

Lemma client_os_exit A n : keeps_client (@os_exit A n).
Proof. intros w. reflexivity. Qed.

Lemma client_record a : keeps_client (record a).
Proof. intros w. reflexivity. Qed.

Lemma client_print m : keeps_client (print m).
Proof. intros w. reflexivity. Qed.

Lemma client_get_count : keeps_client get_count.
Proof. intros w. reflexivity. Qed.

Lemma client_set_count n : keeps_client (set_count n).
Proof. intros w. reflexivity. Qed.

Lemma client_asked_to_stop : keeps_client asked_to_stop.
Proof. intros w. reflexivity. Qed.

Lemma client_ask_to_stop : keeps_client ask_to_stop.
Proof. intros w. reflexivity. Qed.

Lemma client_create_task c : keeps_client (create_task c).
Proof. intros w. reflexivity. Qed.

Lemma client_take_tasks : keeps_client take_tasks.
Proof. intros w. reflexivity. Qed.

Lemma client_await answer : keeps_client (await answer).
Proof. intros w. destruct answer; reflexivity. Qed.

Lemma client_unpack data : keeps_client (unpack data).
Proof.
  intros w. unfold unpack. destruct (unpack_Hh data); reflexivity.
Qed.

Lemma client_bind A B (c : M A) (k : A -> M B) :
  keeps_client c -> (forall a, keeps_client (k a)) ->
  keeps_client (bind c k).
Proof.
  intros Hc Hk w. unfold bind. specialize (Hc w).
  destruct (c w) as [[a | e | n |] w']; cbn [snd] in *; try exact Hc.
  rewrite Hk. exact Hc.
Qed.

Lemma client_try_except A (c : M A) handles h :
  keeps_client c -> (forall e, keeps_client (h e)) ->
  keeps_client (try_except c handles h).
Proof.
  intros Hc Hh w. unfold try_except. specialize (Hc w).
  destruct (c w) as [[a | e | n |] w']; cbn [snd] in *; try exact Hc.
  destruct (handles e); [rewrite Hh |]; exact Hc.
Qed.

Lemma client_detached (c : M unit) :
  keeps_client c -> keeps_client (detached c).
Proof.
  intros Hc w. unfold detached. specialize (Hc w).
  destruct (c w) as [[a | e | n |] w']; exact Hc.
Qed.

Lemma client_send client a : keeps_client (send client a).
Proof. intros w. reflexivity. Qed.

Lemma client_call client a : keeps_client (call client a).
Proof. intros w. rewrite call_spec. reflexivity. Qed.

Lemma client_read_gatt_char client u : keeps_client (read_gatt_char client u).
Proof. intros w. rewrite read_gatt_char_spec. reflexivity. Qed.

End KeepsClient.

#[export] Hint Resolve client_ret client_raise client_pending client_os_exit
  client_record client_print client_get_count client_set_count
  client_asked_to_stop client_ask_to_stop client_create_task
  client_take_tasks client_await client_unpack client_bind
  client_try_except client_detached client_send client_call
  client_read_gatt_char : client.

Ltac client :=
  repeat first
    [ progress intros
    | solve [auto with client]
    | match goal with
      | |- keeps_client (if ?b then _ else _) => destruct b
      | |- keeps_client (match ?x with _ => _ end) => destruct x
      | |- keeps_client (let '(_, _) := ?x in _) => destruct x
      end
    | apply client_bind
    | apply client_try_except
    | apply client_detached ].

Section KeepsClientScript.

Variable os : os_name.
Variable config : Config.
Variable client : BleakClient.
Variable desk_pickle : option BLEDevice.
Variable discovered : exn + list BLEDevice.
Variable pickle_dump_answer : option exn.

Lemma client_run_coroutine c : keeps_client (run_coroutine os client c).
Proof.
  destruct c; cbn [run_coroutine];
    unfold stop, move_up, move_down, write_gatt_char; client.
Qed.

#[local] Hint Resolve client_run_coroutine : client.

Lemma client_run_tasks cs : keeps_client (run_tasks os client cs).
Proof. induction cs as [| c cs IH]; cbn [run_tasks]; client. Qed.

#[local] Hint Resolve client_run_tasks : client.

Lemma client_print_height_data data : keeps_client (print_height_data data).
Proof. unfold print_height_data. client. Qed.

Lemma client__move_to target d data :
  keeps_client (_move_to config target d data).
Proof. unfold _move_to. client. Qed.

#[local] Hint Resolve client_print_height_data client__move_to : client.

Lemma client_sleeping u callback events :
  (forall data, keeps_client (callback data)) ->
  keeps_client (sleeping os client u callback events).
Proof.
  intros Hcb.
  induction events as [| ev events IH]; cbn [sleeping];
    unfold deliver, disconnect_callback, stop_notify; client.
Qed.

#[local] Hint Resolve client_sleeping : client.

Lemma client_subscribe u callback events :
  (forall data, keeps_client (callback data)) ->
  keeps_client (subscribe os client u callback events).
Proof.
  intros Hcb. unfold subscribe, polling, start_notify, stop_notify. client.
Qed.

Lemma client_move_to target events :
  keeps_client (move_to os config client target events).
Proof. unfold move_to, gather, polling, stop_notify. client. Qed.

#[local] Hint Resolve client_subscribe client_move_to : client.

Lemma client_session desk events :
  keeps_client (session os config client pickle_dump_answer desk events).
Proof. unfold session, operate, pickle_desk. client. Qed.

Lemma client_scan mac : keeps_client (scan discovered mac).
Proof. unfold scan. client. Qed.

Lemma client_print_devices devices : keeps_client (print_devices devices).
Proof.
  induction devices as [| device devices IH]; cbn [print_devices]; client.
Qed.

#[local] Hint Resolve client_scan client_print_devices : client.

Lemma client_find_desk :
  keeps_client (find_desk os config desk_pickle discovered).
Proof. unfold find_desk. client. Qed.

Lemma client_connect desk : keeps_client (connect client desk).
Proof. unfold connect. client. Qed.

End KeepsClientScript.

Lemma move_action_is_not os d a (b : action) :
  b = Connect \/ b = Disconnect \/ b = Discover ->
  move_action os d a -> a <> b.
Proof.
  intros Hb [-> | [-> | [[_ ->] | [-> | [m ->]]]]];
    destruct Hb as [-> | [-> | ->]]; try discriminate;
    destruct d; discriminate.
Qed.

Lemma bind_unfold A B (c : M A) (k : A -> M B) w :
  bind c k w =
  match c w with
  | (Ok a, w') => k a w'
  | (Raise e, w') => (Raise e, w')
  | (Exit n, w') => (Exit n, w')
  | (Pending, w') => (Pending, w')
  end.
Proof. reflexivity. Qed.

Lemma connect_spec client desk w :
  connect client desk w =
  match answers client (log w ++ [Print MsgConnecting]) Connect with
  | None => (Ok tt, logged [Print MsgConnecting; Connect] w)
  | Some e =>
      if is_BleakError e
      then (Exit 1,
            logged [Print MsgConnecting; Connect; Print MsgConnectingFailed]
              w)
      else (Raise e, logged [Print MsgConnecting; Connect] w)
  end.
Proof.
  unfold connect, try_except, bind at 1, print, record.
  rewrite call_spec. unfold logged. projections. rewrite <- !app_assoc.
  cbn [app].
  destruct (answers client (log w ++ [Print MsgConnecting]) Connect)
    as [e |]; [| reflexivity].
  destruct (is_BleakError e); [| reflexivity].
  unfold bind, print, record, os_exit. projections.
  rewrite <- !app_assoc. reflexivity.
Qed.

(** What [run] has asked of the client when it ends. *)
Section Connection.

Variable os : os_name.
Variable config : Config.
Variable client : BleakClient.
Variable desk_pickle : option BLEDevice.
Variable discovered : exn + list BLEDevice.
Variable pickle_dump_answer : option exn.

Local Abbreviation the_run_body :=
  (run_body os config client desk_pickle discovered pickle_dump_answer).
Local Abbreviation the_run :=
  (run os config client desk_pickle discovered pickle_dump_answer).
Local Abbreviation the_main :=
  (main os config client desk_pickle discovered pickle_dump_answer).
Local Abbreviation the_session :=
  (session os config client pickle_dump_answer).

#[local] Hint Resolve client_scan client_print_devices : client.

(** [run_body] either ends before it connects, without having asked to
    connect and with the global [client] untouched, or goes on from
    [connect]. *)
Lemma run_body_cases events w :
  tasks w = [] ->
  (exists added,
      log (snd (the_run_body events w)) = log w ++ added /\
      Forall (fun a => a <> Connect) added /\
      client_set (snd (the_run_body events w)) = client_set w) \/
  (exists w1 before desk,
      tasks w1 = [] /\ client_set w1 = client_set w /\
      log w1 = log w ++ before /\ Forall (fun a => a <> Connect) before /\
      the_run_body events w =
      (connect client desk ;; set_client ;; the_session desk events) w1).
Proof.
  intros Hidle. unfold run_body.
  assert (Hprint : forall m, Print m <> Connect) by discriminate.
  assert (Hdiscover : Discover <> Connect) by discriminate.
  destruct (scan_adapter config).
  - left.
    match goal with
    | |- context [snd (?c w)] =>
        assert (Hlogs : logs_only (fun a => a <> Connect) c);
        [| assert (Hclient : keeps_client c) by client ]
    end.
    { pose proof (logs_scan discovered (fun a => a <> Connect) Hprint
                    Hdiscover).
      pose proof (logs_print_devices (fun a => a <> Connect) Hprint).
      logs. }
    destruct (Hlogs w Hidle) as (_ & added & Hlog & Hadded).
    exists added. repeat split; [exact Hlog | exact Hadded | apply Hclient].
  - pose proof (logs_find_desk os config desk_pickle discovered
                  (fun a => a <> Connect) Hprint Hdiscover w Hidle)
      as (Hidle1 & before & Hlog1 & Hbefore).
    pose proof (client_find_desk os config desk_pickle discovered w)
      as Hclient1.
    rewrite bind_unfold.
    destruct (find_desk os config desk_pickle discovered w)
      as [[[desk |] | e | status |] w1]; cbn [snd] in *.
    + right. exists w1, before, desk.
      repeat split; try assumption; reflexivity.
    + left. exists (before ++ [Print MsgCouldNotFindDesk]).
      unfold bind, print, record, os_exit. projections.
      rewrite Hlog1, <- app_assoc.
      repeat split; [| exact Hclient1].
      apply Forall_app. split; [exact Hbefore |].
      repeat constructor. discriminate.
    + left. exists before. repeat split; assumption.
    + left. exists before. repeat split; assumption.
    + left. exists before. repeat split; assumption.
Qed.

Lemma run_never_disconnects events :
  logs_only (fun a => a <> Disconnect) (the_run events).
Proof.
  apply logs_run; try discriminate.
  - split; discriminate.
  - intros d a. apply move_action_is_not. auto.
Qed.

Lemma session_grows desk events w :
  tasks w = [] ->
  exists added,
    log (snd ((set_client ;; the_session desk events) w)) = log w ++ added /\
    client_set (snd ((set_client ;; the_session desk events) w)) = true /\
    forall status,
      fst ((set_client ;; the_session desk events) w) <> Exit status.
Proof.
  intros Hidle.
  assert (Hlogs : logs_only (fun _ => True)
                    (set_client ;; the_session desk events)).
  { apply logs_bind; [apply logs_set_client |]. intros [].
    apply logs_session; auto. }
  destruct (Hlogs w Hidle) as (_ & added & Hlog & _).
  exists added. split; [exact Hlog |]. split.
  - unfold bind, set_client.
    rewrite (client_session os config client pickle_dump_answer desk events).
    reflexivity.
  - apply stays_bind; [apply stays_set_client |]. intros [].
    apply stays_session.
Qed.

(** The log of [run] and the global [client] it leaves. *)
Lemma run_connects events w :
  tasks w = [] ->
  client_set w = false ->
  exists added,
    log (snd (the_run events w)) = log w ++ added /\
    Forall (fun a => a <> Disconnect) added /\
    (client_set (snd (the_run events w)) = true -> In Connect added) /\
    ((forall history, answers client history Connect = None) ->
     In Connect added ->
     client_set (snd (the_run events w)) = true /\
     forall status, fst (the_run events w) <> Exit status).
Proof.
  intros Hidle Hclient.
  destruct (run_never_disconnects events w Hidle)
    as (_ & added & Hlog & Hadded).
  exists added. split; [exact Hlog |]. split; [exact Hadded |].
  assert (Hrun : client_set (snd (the_run events w)) =
                 client_set (snd (the_run_body events w)) /\
                 (forall status,
                     fst (the_run events w) = Exit status ->
                     fst (the_run_body events w) = Exit status) /\
                 exists said,
                   log (snd (the_run events w)) =
                   log (snd (the_run_body events w)) ++ said /\
                   Forall (fun a => a <> Connect) said).
  { unfold run, try_except.
    destruct (the_run_body events w) as [[[] | e | status |] w'];
      cbn [fst snd]; repeat split; try (intros; assumption);
      try discriminate;
      try (exists []; rewrite app_nil_r; split; [reflexivity | constructor]).
    exists [Print (MsgException e)]. split; [reflexivity |].
    repeat constructor. discriminate. }
  destruct Hrun as (Hsame & Hexit & said & Hsaid & Hquiet).
  rewrite Hsame, Hsaid in *.
  destruct (run_body_cases events w Hidle)
    as [(got & Hgot & Hnone & Hkept)
       | (w1 & before & desk & Hidle1 & Hclient1 & Hlog1 & Hbefore & Hbody)].
  - rewrite Hgot in Hlog. rewrite <- app_assoc in Hlog.
    apply app_inv_head in Hlog. subst added.
    assert (Hnever : ~ In Connect (got ++ said)).
    { intros Hin. apply in_app_or in Hin.
      rewrite Forall_forall in Hnone, Hquiet.
      destruct Hin as [Hin | Hin];
        [apply (Hnone _ Hin) | apply (Hquiet _ Hin)]; reflexivity. }
    split.
    + rewrite Hkept, Hclient. discriminate.
    + intros _ Hin. contradiction.
  - rewrite Hbody in *. rewrite bind_unfold in *.
    rewrite connect_spec in *.
    destruct (answers client (log w1 ++ [Print MsgConnecting]) Connect)
      as [e |] eqn:Hanswer.
    + assert (Hin : In Connect added).
      { assert (Hshape : exists tail,
                   log w ++ added =
                   (log w ++ before ++ [Print MsgConnecting; Connect])
                   ++ tail).
        { rewrite <- Hlog. destruct (is_BleakError e); cbn [snd];
            unfold logged; projections; rewrite Hlog1;
            rewrite <- !app_assoc; cbn [app];
            eexists; rewrite <- !app_assoc; cbn [app]; reflexivity. }
        destruct Hshape as [tail Hshape].
        rewrite <- !app_assoc in Hshape. apply app_inv_head in Hshape.
        rewrite Hshape. apply in_or_app. right. apply in_or_app. left.
        right. left. reflexivity. }
      split; [intros _; exact Hin |].
      intros Hanswers. rewrite Hanswers in Hanswer. discriminate.
    + cbn [fst snd] in *.
      destruct (session_grows desk events
                  (logged [Print MsgConnecting; Connect] w1) Hidle1)
        as (grown & Hgrown & Hset & Hstays).
      assert (Hin : In Connect added).
      { rewrite Hgrown in Hlog. unfold logged in Hlog. projections.
        cbn [log] in Hlog. rewrite Hlog1 in Hlog.
        rewrite <- !app_assoc in Hlog. apply app_inv_head in Hlog.
        rewrite <- Hlog. apply in_or_app. right. right. left. reflexivity. }
      split; [intros _; exact Hin |].
      intros _ _. split; [exact Hset |].
      intros status Hstatus. apply Hexit in Hstatus.
      apply (Hstays status Hstatus).
Qed.

End Connection.

(** What [main] adds once [run] has ended. *)
Section Disconnecting.

Variable os : os_name.
Variable config : Config.
Variable client : BleakClient.
Variable desk_pickle : option BLEDevice.
Variable discovered : exn + list BLEDevice.
Variable pickle_dump_answer : option exn.

Local Abbreviation the_run :=
  (run os config client desk_pickle discovered pickle_dump_answer).
Local Abbreviation the_main :=
  (main os config client desk_pickle discovered pickle_dump_answer).

(** [main] after [run]: the disconnection, when the global [client] is
    set. *)
Lemma main_after_run events w :
  the_main events w =
  match the_run events w with
  | (Ok _, w') =>
      if client_set w' then
        (match answers client (log w' ++ [Print MsgDisconnecting])
                 Disconnect with
         | Some e => Raise e
         | None => Ok tt
         end,
         logged ([Print MsgDisconnecting; Disconnect] ++
                 match answers client (log w' ++ [Print MsgDisconnecting])
                         Disconnect with
                 | Some _ => []
                 | None => [Print MsgDisconnected]
                 end) (stopped w'))
      else (Ok tt, w')
  | (Raise e, w') => (Raise e, w')
  | (Exit n, w') => (Exit n, w')
  | (Pending, w') => (Pending, w')
  end.
Proof.
  unfold main. rewrite bind_unfold.
  destruct (the_run events w) as [[[] | e | n |] w']; try reflexivity.
  unfold bind, get_client_set. destruct (client_set w').
  - unfold print, record, ask_to_stop. rewrite call_spec.
    projections.
    destruct (answers client (log w' ++ [Print MsgDisconnecting]) Disconnect);
      unfold logged, stopped; projections; rewrite <- !app_assoc;
      reflexivity.
  - destruct w'. reflexivity.
Qed.

Lemma run_never_raises events w e : fst (the_run events w) <> Raise e.
Proof.
  unfold run, try_except.
  destruct (run_body os config client desk_pickle discovered
              pickle_dump_answer events w) as [[[] | e' | n |] w'];
    discriminate.
Qed.

End Disconnecting.

(** X13.  [main] asks the client to disconnect at most once, and only after
    it has asked it to connect. *)
Theorem disconnect_once_after_connect os config client desk_pickle
  discovered pickle_dump_answer events w :
  tasks w = [] ->
  client_set w = false ->
  exists rest,
    log (snd (main os config client desk_pickle discovered
                pickle_dump_answer events w)) = log w ++ rest /\
    (~ In Disconnect rest \/
     exists before after,
       rest = before ++ Disconnect :: after /\
       In Connect before /\
       ~ In Disconnect before /\ ~ In Disconnect after).
Proof.
  intros Hidle Hclient.
  destruct (run_connects os config client desk_pickle discovered
              pickle_dump_answer events w Hidle Hclient)
    as (added & Hlog & Hnone & Hconnected & _).
  assert (Hnever : ~ In Disconnect added).
  { intros Hin. rewrite Forall_forall in Hnone.
    apply (Hnone _ Hin). reflexivity. }
  rewrite main_after_run.
  destruct (run os config client desk_pickle discovered pickle_dump_answer
              events w) as [[[] | e | n |] w']; cbn [snd] in *;
    try (exists added; split; [exact Hlog | left; exact Hnever]).
  destruct (client_set w') eqn:Hset;
    [| exists added; split; [exact Hlog | left; exact Hnever]].
  cbn [snd]. unfold logged, stopped. projections.
  match goal with
  | |- context [[Print MsgDisconnecting; Disconnect] ++ ?t] =>
      set (tail := t)
  end.
  exists (added ++ [Print MsgDisconnecting; Disconnect] ++ tail).
  split; [rewrite Hlog, <- app_assoc; reflexivity |].
  right. exists (added ++ [Print MsgDisconnecting]), tail.
  split; [rewrite <- app_assoc; reflexivity |].
  split; [apply in_or_app; left; apply Hconnected; reflexivity |].
  split.
  - intros Hin. apply in_app_or in Hin. destruct Hin as [Hin | [Hin | []]];
      [contradiction | discriminate Hin].
  - subst tail.
    destruct (answers client (log w' ++ [Print MsgDisconnecting]) Disconnect).
    + intros [].
    + intros [Hin | []]. discriminate Hin.
Qed.

(** X14.  On Linux, or when no signal arrives: when the connection succeeds
    and [main] runs to its end, it has asked the client to disconnect,
    whatever happened in between.  (Off Linux no handler is installed, and
    a signal ends the script without the disconnection.) *)
Theorem connected_run_disconnects os config client desk_pickle discovered
  pickle_dump_answer events w :
  signals_handled os events ->
  tasks w = [] ->
  client_set w = false ->
  (forall history, answers client history Connect = None) ->
  ended (fst (main os config client desk_pickle discovered
                pickle_dump_answer events w)) ->
  forall rest,
    log (snd (main os config client desk_pickle discovered
                pickle_dump_answer events w)) = log w ++ rest ->
    In Connect rest ->
    In Disconnect rest.
Proof.
  intros _ Hidle Hclient Hanswers Hended rest Hrest Hin.
  destruct (run_connects os config client desk_pickle discovered
              pickle_dump_answer events w Hidle Hclient)
    as (added & Hlog & _ & _ & Hreached).
  specialize (Hreached Hanswers).
  pose proof (run_never_raises os config client desk_pickle discovered
                pickle_dump_answer events w) as Hraise.
  rewrite main_after_run in *.
  destruct (run os config client desk_pickle discovered pickle_dump_answer
              events w) as [[[] | e | n |] w']; cbn [fst snd] in *;
    try contradiction.
  2: { exfalso. apply (Hraise e). reflexivity. }
  destruct (client_set w') eqn:Hset.
  - cbn [snd] in Hrest. unfold logged, stopped in Hrest.
    cbn [log] in Hrest. rewrite Hlog, <- app_assoc in Hrest.
    apply app_inv_head in Hrest. subst rest.
    apply in_or_app. right. apply in_or_app. left. right. left.
    reflexivity.
  - cbn [snd] in Hrest. rewrite Hlog in Hrest.
    apply app_inv_head in Hrest. subst rest.
    destruct (Hreached Hin) as [Hset' _]. congruence.
Qed.

(* ------------------------------------------------------------------ *)
(** ** Leaving the process *)

(** The ways out of [main]. *)
Section Leaving.

Variable os : os_name.
Variable config : Config.
Variable client : BleakClient.
Variable desk_pickle : option BLEDevice.
Variable discovered : exn + list BLEDevice.
Variable pickle_dump_answer : option exn.

Local Abbreviation the_run_body :=
  (run_body os config client desk_pickle discovered pickle_dump_answer).
Local Abbreviation the_main :=
  (main os config client desk_pickle discovered pickle_dump_answer).

Lemma print_devices_spec devices w :
  print_devices devices w =
  (Ok tt,
   logged (map (fun device => Print (MsgDevice (address device))) devices) w).
Proof.
  revert w. induction devices as [| device devices IH]; intros w;
    cbn [print_devices map].
  - unfold ret. rewrite logged_nil. reflexivity.
  - unfold bind, print, record. rewrite IH. unfold logged. projections.
    rewrite <- app_assoc. reflexivity.
Qed.

Lemma stays_scan mac : never_exits (scan discovered mac).
Proof. unfold scan. stays. Qed.

Lemma stays_find_desk :
  never_exits (find_desk os config desk_pickle discovered).
Proof. unfold find_desk. pose proof stays_scan. stays. Qed.

Lemma run_body_exits events w status :
  fst (the_run_body events w) = Exit status -> status = 0 \/ status = 1.
Proof.
  unfold run_body. destruct (scan_adapter config).
  - rewrite bind_unfold.
    pose proof (stays_scan None w) as Hscan.
    destruct (scan discovered None w) as [[found | e | n |] w1];
      cbn [fst] in *; try discriminate.
    + destruct found; try discriminate.
      unfold bind, print, record. rewrite print_devices_spec.
      intros [= <-]. left. reflexivity.
    + intros _. exfalso. apply (Hscan n). reflexivity.
  - rewrite bind_unfold.
    pose proof (stays_find_desk w) as Hfind.
    destruct (find_desk os config desk_pickle discovered w)
      as [[[desk |] | e | n |] w1]; cbn [fst] in *; try discriminate.
    + rewrite bind_unfold, connect_spec.
      destruct (answers client (log w1 ++ [Print MsgConnecting]) Connect)
        as [e |].
      * destruct (is_BleakError e); [| discriminate].
        intros [= <-]. right. reflexivity.
      * intros Hexit. exfalso. revert Hexit.
        apply stays_bind; [apply stays_set_client |]. intros [].
        apply stays_session.
    + intros [= <-]. right. reflexivity.
    + intros _. exfalso. apply (Hfind n). reflexivity.
Qed.

Lemma main_exit_of_body events w status :
  fst (the_main events w) = Exit status ->
  fst (the_run_body events w) = Exit status.
Proof.
  rewrite main_after_run. unfold run, try_except.
  destruct (the_run_body events w) as [[[] | e | n |] w']; cbn [fst snd].
  - destruct (client_set w'); [| discriminate]. cbn [fst].
    destruct (answers client _ Disconnect); discriminate.
  - unfold print, record. projections.
    match goal with
    | |- context [if ?b then _ else _] => destruct b
    end; [| discriminate]. cbn [fst].
    destruct (answers client _ Disconnect); discriminate.
  - intros H. exact H.
  - discriminate.
Qed.

(** The adapter scan, lines 285-290. *)
Lemma main_scan_dump events w devices :
  scan_adapter config = true ->
  discovered = inr devices ->
  the_main events w =
  (Exit 0,
   logged ([Print MsgScanning; Discover;
            Print (MsgFoundDevices (List.length devices))] ++
           map (fun device => Print (MsgDevice (address device))) devices)
     w).
Proof.
  intros Hscan Hfound. rewrite main_after_run.
  unfold run, try_except, run_body. rewrite Hscan.
  unfold scan, bind, print, record. rewrite Hfound.
  cbn [truthy_str negb]. unfold ret. rewrite print_devices_spec.
  unfold os_exit, logged. projections. rewrite <- !app_assoc. reflexivity.
Qed.

Lemma main_scan_fails events w e :
  scan_adapter config = true ->
  discovered = inl e ->
  client_set w = false ->
  the_main events w =
  (Ok tt, logged [Print MsgScanning; Discover; Print (MsgException e)] w).
Proof.
  intros Hscan Hfound Hclient. rewrite main_after_run.
  unfold run, try_except, run_body. rewrite Hscan.
  unfold scan, bind, print, record. rewrite Hfound.
  unfold raise, logged. projections.
  destruct (client_set w); [discriminate Hclient |].
  rewrite <- !app_assoc. reflexivity.
Qed.

End Leaving.

(** X15.  From line 112 on, that is once [parse_args] has returned, and on
    Linux or when no signal arrives: the script ends only with status 0, 1
    or 2, and with 2 exactly when a check of lines 112-122 fails. *)
Theorem exit_status_range out s events status :
  signals_handled (platform out) events ->
  fst (script out s events) = Some status ->
  (validate s <> None /\ status = 2) \/
  (validate s = None /\ (status = 0 \/ status = 1)).
Proof.
  intros _. unfold script. destruct (validate s) as [err |] eqn:Hvalid.
  - intros [= <-]. left. split; [discriminate | reflexivity].
  - cbn [fst]. intros Hstatus. right. split; [reflexivity |].
    pose proof (main_exit_of_body (platform out) (derive s) (desk_client out)
                  (pickled out) (discovery out) (pickle_dump out) events
                  initial_world) as Hmain.
    destruct (fst (main (platform out) (derive s) (desk_client out)
                     (pickled out) (discovery out) (pickle_dump out) events
                     initial_world)) as [[] | e | n |];
      cbn [exit_status] in Hstatus.
    + injection Hstatus as <-. left. reflexivity.
    + injection Hstatus as <-. right. reflexivity.
    + injection Hstatus as <-.
      apply (run_body_exits (platform out) (derive s) (desk_client out)
               (pickled out) (discovery out) (pickle_dump out) events
               initial_world n).
      apply Hmain. reflexivity.
    + discriminate.
Qed.

(** X16.  With [--scan] the script scans once, prints the number of devices
    and each device in the order discovered, and ends with status 0 without
    connecting; if the scan raises, [run] prints the exception and [main]
    returns normally. *)
Theorem scan_dump os (config : Config) client desk_pickle discovered
  pickle_dump_answer events w :
  scan_adapter config = true ->
  (forall devices,
      discovered = inr devices ->
      main os config client desk_pickle discovered pickle_dump_answer
        events w =
      (Exit 0,
       logged ([Print MsgScanning; Discover;
                Print (MsgFoundDevices (List.length devices))] ++
               map (fun device => Print (MsgDevice (address device)))
                 devices) w)) /\
  (forall e,
      discovered = inl e ->
      client_set w = false ->
      main os config client desk_pickle discovered pickle_dump_answer
        events w =
      (Ok tt,
       logged [Print MsgScanning; Discover; Print (MsgException e)] w)).
Proof.
  intros Hscan. split.
  - intros devices Hfound. apply main_scan_dump; assumption.
  - intros e Hfound Hclient. apply main_scan_fails; assumption.
Qed.

(** X17.  When [connect] raises anything other than [BleakError] (a timeout
    of the connection, say), [run] prints the exception, [client] is never
    assigned, so [main] does not disconnect, and the process ends with
    status 0. *)
Theorem connect_failure_other_than_BleakError out s events desk e :
  validate s = None ->
  scan_adapter s = false ->
  desk_known out s desk ->
  (forall history, answers (desk_client out) history Connect = Some e) ->
  is_BleakError e = false ->
  fst (script out s events) = Some 0 /\
  In (Print (MsgException e)) (log (snd (script out s events))) /\
  ~ In Disconnect (log (snd (script out s events))).
Proof.
  intros Hvalid Hscan Hknown Hconnect Hother.
  unfold script. rewrite Hvalid. cbn [fst snd].
  destruct (find_desk_known (platform out) (derive s) (pickled out)
              (discovery out) initial_world desk
              (proj1 (validate_None s Hvalid)) Hknown) as [w1 Hdesk].
  pose proof (client_find_desk (platform out) (derive s) (pickled out)
                (discovery out) initial_world) as Hclient.
  rewrite Hdesk in Hclient. cbn [snd] in Hclient.
  pose proof (run_never_disconnects (platform out) (derive s)
                (desk_client out) (pickled out) (discovery out)
                (pickle_dump out) events initial_world eq_refl)
    as (_ & added & Hlog & Hadded).
  rewrite main_after_run.
  assert (Hrun : run (platform out) (derive s) (desk_client out)
                   (pickled out) (discovery out) (pickle_dump out) events
                   initial_world =
                 (Ok tt, logged [Print MsgConnecting; Connect;
                                 Print (MsgException e)] w1)).
  { unfold run, try_except, run_body.
    change (scan_adapter (derive s)) with (scan_adapter s). rewrite Hscan.
    rewrite bind_unfold, Hdesk, bind_unfold, connect_spec, Hconnect, Hother.
    unfold print, record, logged. projections.
    rewrite <- app_assoc. reflexivity. }
  rewrite Hrun in *. cbn [snd] in Hlog.
  replace (client_set (logged [Print MsgConnecting; Connect;
                               Print (MsgException e)] w1))
    with false by (symmetry; exact Hclient).
  cbn [fst snd exit_status]. split; [reflexivity |]. split.
  - unfold logged. projections. apply in_or_app. right.
    right. right. left. reflexivity.
  - rewrite Hlog. cbn [log initial_world app]. intros Hin.
    rewrite Forall_forall in Hadded. apply (Hadded _ Hin). reflexivity.
Qed.

(* ------------------------------------------------------------------ *)
(** ** The cached desk, and a run without a command *)

Lemma move_action_not_scanning os d a : move_action os d a -> not_scanning a.
Proof.
  unfold not_scanning.
  intros [-> | [-> | [[_ ->] | [-> | [m ->]]]]]; try discriminate.
  destruct d; discriminate.
Qed.

(** X18.  When [desk.pickle] holds the desk with the configured address, the
    script never scans. *)
Theorem cached_desk_skips_scan os (config : Config) client desk_pickle
  discovered pickle_dump_answer events w desk :
  tasks w = [] ->
  scan_adapter config = false ->
  unpickle_desk os config desk_pickle = Some desk ->
  exists rest,
    log (snd (main os config client desk_pickle discovered
                pickle_dump_answer events w)) = log w ++ rest /\
    ~ In Discover rest.
Proof.
  intros Hidle Hscan Hpickle.
  assert (Hprint : forall m, not_scanning (Print m)) by discriminate.
  assert (Hmain : logs_only not_scanning
                    (main os config client desk_pickle discovered
                       pickle_dump_answer events)).
  { unfold main, run, run_body, find_desk. rewrite Hscan, Hpickle.
    pose proof (logs_connect client not_scanning Hprint) as Hconnect.
    pose proof (logs_session os config client pickle_dump_answer
                  not_scanning Hprint) as Hsession.
    apply logs_bind.
    - apply logs_try_except.
      + apply logs_bind; [apply logs_ret |]. intros [found |].
        * apply logs_bind; [apply Hconnect; discriminate |]. intros _.
          apply logs_bind; [apply logs_set_client |]. intros _.
          apply Hsession; try discriminate.
          -- split; discriminate.
          -- apply move_action_not_scanning.
        * apply logs_bind; [apply logs_print; apply Hprint |]. intros _.
          apply logs_os_exit.
      + intros e. apply logs_print. apply Hprint.
    - intros _. apply logs_bind; [apply logs_get_client_set |].
      intros [|]; [| apply logs_ret].
      apply logs_bind; [apply logs_print; apply Hprint |]. intros _.
      apply logs_bind; [apply logs_ask_to_stop |]. intros _.
      apply logs_bind; [apply logs_call; discriminate |]. intros _.
      apply logs_print. apply Hprint. }
  destruct (Hmain w Hidle) as (_ & rest & Hlog & Hrest).
  exists rest. split; [exact Hlog |].
  intros Hin. rewrite Forall_forall in Hrest.
  apply (Hrest Discover Hin). reflexivity.
Qed.

Lemma cached_desk_skips_scan_witness :
  exists rest,
    log (snd (main posix (derive sample_settings) obliging_client
                (Some sample_desk) (inr [other_desk; sample_desk]) None
                [Notification seated; Tick] initial_world)) =
    log initial_world ++ rest /\
    ~ In Discover rest.
Proof.
  apply (cached_desk_skips_scan posix (derive sample_settings)
           obliging_client (Some sample_desk)
           (inr [other_desk; sample_desk]) None
           [Notification seated; Tick] initial_world sample_desk);
    reflexivity.
Defined.

(** X19.  Without a command the script finds the desk, connects, caches the
    desk (off Windows), prints the current height and disconnects, ending
    with status 0; no event is waited for. *)
Theorem run_without_command out s events desk data height speed :
  validate s = None ->
  scan_adapter s = false ->
  monitor s = false ->
  sit s = false ->
  stand s = false ->
  truthy_opt (move_to_mm s) = false ->
  desk_known out s desk ->
  (forall history, answers (desk_client out) history Connect = None) ->
  (forall history, answers (desk_client out) history Disconnect = None) ->
  pickle_dump out = None ->
  (forall history, reads (desk_client out) history UUID_HEIGHT = inr data) ->
  unpack_Hh data = Some (height, speed) ->
  exists cached,
    fst (script out s events) = Some 0 /\
    log (snd (script out s events)) =
    finding cached ++
    [Print MsgConnecting; Connect] ++
    caching (platform out) ++
    [Print MsgConnected; ReadGattChar UUID_HEIGHT; Print (MsgHeight height);
     Print MsgDisconnecting; Disconnect; Print MsgDisconnected].
Proof.
  intros Hvalid Hscan Hmonitor Hsit Hstand Hmove Hknown Hconnect Hdisconnect
    Hdump Hread Hdata.
  pose proof (validate_None s Hvalid) as (Hmac & _).
  exists (match unpickle_desk (platform out) (derive s) (pickled out) with
          | Some _ => true
          | None => false
          end).
  unfold script. rewrite Hvalid. cbn zeta. cbn [fst snd].
  unfold main, run, run_body, try_except.
  cbn [derive settings scan_adapter]. rewrite Hscan.
  unfold bind.
  assert (Hfound :
    exists w1,
      find_desk (platform out) (derive s) (pickled out) (discovery out)
        initial_world = (Ok (Some desk), w1) /\
      stop_flag w1 = false /\ client_set w1 = false /\ tasks w1 = [] /\
      log w1 =
      finding (match unpickle_desk (platform out) (derive s) (pickled out)
               with Some _ => true | None => false end)).
  { unfold find_desk.
    destruct Hknown as [Hpickle | (Hpickle & devices & Hdisc & Hfind)];
      rewrite Hpickle.
    - eexists. split; [reflexivity |]. repeat split.
    - unfold scan, bind, print, record. rewrite Hdisc.
      cbn [derive settings mac_address]. rewrite Hmac. cbn [negb].
      rewrite Hfind. eexists. split; [reflexivity |]. repeat split. }
  destruct Hfound as (w1 & Hfind & Hflag1 & Hclient1 & Htasks1 & Hlog1).
  rewrite Hfind.
  rewrite connect_spec, Hconnect.
  unfold set_client, session, bind, pickle_desk, caching.
  destruct (IS_WINDOWS (platform out)); cbn [negb];
    unfold ret, record, await, print, record, bind; rewrite ?Hdump;
    unfold ret; rewrite read_gatt_char_spec, Hread;
    unfold unpack; rewrite Hdata; unfold ret, print, record, operate;
    cbn [derive settings monitor sit stand move_to_mm];
    rewrite Hmonitor, Hsit, Hstand, Hmove; unfold ret, get_client_set;
    unfold logged; projections; unfold ask_to_stop;
    rewrite call_spec, Hdisconnect;
    unfold logged; projections; rewrite Hlog1;
    rewrite <- ?app_assoc; split; reflexivity.
Qed.

Lemma run_without_command_witness :
  exists cached,
    fst (script desk_around idle_settings []) = Some 0 /\
    log (snd (script desk_around idle_settings [])) =
    finding cached ++
    [Print MsgConnecting; Connect] ++
    caching posix ++
    [Print MsgConnected; ReadGattChar UUID_HEIGHT; Print (MsgHeight 0);
     Print MsgDisconnecting; Disconnect; Print MsgDisconnected].
Proof.
  apply (run_without_command desk_around idle_settings [] sample_desk lowest
           0 0);
    try reflexivity.
  right. split; [reflexivity |].
  exists [other_desk; sample_desk]. split; reflexivity.
Defined.

(* ------------------------------------------------------------------ *)
(** ** Merging the configuration *)

(** Lookups after [setitem] and [update]. *)
Section Dictionaries.

Import Configuration.

Lemma get_setitem d k k' v :
  get (setitem d k' v) k = if String.eqb k' k then Some v else get d k.
Proof.
  induction d as [| [k0 v0] d IH]; cbn [setitem get].
  - reflexivity.
  - destruct (String.eqb k0 k') eqn:Hk0; cbn [get].
    + apply String.eqb_eq in Hk0. subst k0.
      destruct (String.eqb k' k); reflexivity.
    + destruct (String.eqb k0 k) eqn:Hk.
      * apply String.eqb_eq in Hk. subst k0.
        rewrite String.eqb_sym, Hk0. reflexivity.
      * exact IH.
Qed.

Lemma get_app d d' k :
  get (d ++ d') k =
  match get d k with
  | Some v => Some v
  | None => get d' k
  end.
Proof.
  induction d as [| [k0 v0] d IH]; cbn [app get]; [reflexivity |].
  destruct (String.eqb k0 k); [reflexivity | exact IH].
Qed.

(** After [d.update(other)] a key has its last value in [other], else the
    one it had in [d]. *)
Lemma get_update other : forall d k,
  get (update d other) k =
  match get (rev other) k with
  | Some v => Some v
  | None => get d k
  end.
Proof.
  unfold update.
  induction other as [| [k0 v0] other IH]; intros d k; cbn [fold_left rev].
  - reflexivity.
  - rewrite IH, get_app. cbn [fst snd get].
    destruct (get (rev other) k); [reflexivity |].
    rewrite get_setitem. destruct (String.eqb k0 k); reflexivity.
Qed.

Lemma get_absent (d : dict) k : ~ In k (map fst d) -> get d k = None.
Proof.
  induction d as [| [k0 v0] d IH]; cbn [map fst In get]; [reflexivity |].
  intros Hnot. destruct (String.eqb k0 k) eqn:Hk.
  - apply String.eqb_eq in Hk. tauto.
  - apply IH. tauto.
Qed.

Lemma get_rev (d : dict) k : NoDup (map fst d) -> get (rev d) k = get d k.
Proof.
  induction d as [| [k0 v0] d IH]; cbn [map fst rev get]; [reflexivity |].
  intros Hkeys. inversion Hkeys as [| ? ? Hfresh Hrest]; subst.
  rewrite get_app, (IH Hrest). cbn [get].
  destruct (String.eqb k0 k) eqn:Hk.
  - apply String.eqb_eq in Hk. subst k0.
    rewrite (get_absent d k Hfresh). reflexivity.
  - destruct (get d k); reflexivity.
Qed.

Lemma get_filter (f : value -> bool) (d : dict) k :
  NoDup (map fst d) ->
  get (filter (fun kv => f (snd kv)) d) k =
  match get d k with
  | Some v => if f v then Some v else None
  | None => None
  end.
Proof.
  induction d as [| [k0 v0] d IH]; cbn [map fst filter snd get];
    [reflexivity |].
  intros Hkeys. inversion Hkeys as [| ? ? Hfresh Hrest]; subst.
  destruct (String.eqb k0 k) eqn:Hk.
  - apply String.eqb_eq in Hk. subst k0.
    destruct (f v0); cbn [get].
    + rewrite String.eqb_refl. reflexivity.
    + rewrite (IH Hrest), (get_absent d k Hfresh). reflexivity.
  - destruct (f v0); cbn [get]; rewrite ?Hk; apply (IH Hrest).
Qed.

Lemma filter_keys (f : string * value -> bool) (d : dict) :
  NoDup (map fst d) -> NoDup (map fst (filter f d)).
Proof.
  induction d as [| [k0 v0] d IH]; cbn [map fst filter]; [auto |].
  intros Hkeys. inversion Hkeys as [| ? ? Hfresh Hrest]; subst.
  destruct (f (k0, v0)); [| auto].
  cbn [map fst]. constructor; [| auto].
  intros Hin. apply Hfresh.
  apply in_map_iff in Hin. destruct Hin as ([k1 v1] & Hk1 & Hin).
  apply filter_In in Hin. apply in_map_iff. exists (k1, v1). tauto.
Qed.

Lemma vars_keys ns : NoDup (map fst (vars ns)).
Proof.
  cbn [vars map fst].
  repeat (constructor;
          [cbn [In]; intros Hin;
           repeat (destruct Hin as [Hin | Hin]; [discriminate Hin |]);
           exact Hin |]).
  constructor.
Qed.

(** An option given on the command line wins; otherwise the value is the one
    the first update left. *)
Lemma get_update_args d ns k :
  get (update d (args ns)) k =
  match get (vars ns) k with
  | Some PyNone | None => get d k
  | Some v => Some v
  end.
Proof.
  rewrite get_update. unfold args.
  rewrite get_rev by (apply filter_keys, vars_keys).
  rewrite (get_filter (fun v => negb (is_None v))) by apply vars_keys.
  destruct (get (vars ns) k) as [[] |]; reflexivity.
Qed.

End Dictionaries.

(** X20.  The four [store_true] flags are never [None], so line 110 always
    overwrites them: after merging, [sit], [stand], [monitor] and
    [scan_adapter] are what the command line says, whatever [config.yaml]
    holds. *)
Theorem flags_only_from_command_line config_file ns :
  Configuration.get (Configuration.merged config_file ns) "sit" =
  Some (Configuration.PyBool (Configuration.sit ns)) /\
  Configuration.get (Configuration.merged config_file ns) "stand" =
  Some (Configuration.PyBool (Configuration.stand ns)) /\
  Configuration.get (Configuration.merged config_file ns) "monitor" =
  Some (Configuration.PyBool (Configuration.monitor ns)) /\
  Configuration.get (Configuration.merged config_file ns) "scan_adapter" =
  Some (Configuration.PyBool (Configuration.scan_adapter ns)).
Proof.
  unfold Configuration.merged. rewrite !get_update_args.
  repeat split; reflexivity.
Qed.

(** X21.  [--scan-timeout] is parsed into the key [scan] (its [dest]), so
    [config['scan_timeout']] is what the defaults and [config.yaml] make
    it, whatever the command line says; the value given lands under
    [scan]. *)
Theorem scan_timeout_not_from_command_line config_file ns :
  Configuration.get (Configuration.merged config_file ns) "scan_timeout" =
  Configuration.get
    (Configuration.update Configuration.config config_file) "scan_timeout" /\
  Configuration.get (Configuration.merged config_file ns) "scan_timeout"
  <> None /\
  forall timeout,
    Configuration.scan ns = Some timeout ->
    Configuration.get (Configuration.merged config_file ns) "scan" =
    Some (Configuration.PyInt timeout).
Proof.
  unfold Configuration.merged. rewrite !get_update_args.
  cbn [Configuration.vars Configuration.get String.eqb Ascii.eqb
         Bool.eqb].
  split; [reflexivity |]. split.
  - rewrite get_update.
    destruct (Configuration.get (rev config_file) "scan_timeout");
      discriminate.
  - intros timeout ->. reflexivity.
Qed.

(** X22.  Every key that the script reads from [config] after line 110 is
    bound, whatever [config.yaml] and the command line hold: no lookup
    raises [KeyError]. *)
Theorem keys_read_are_bound config_file ns :
  Forall
    (fun k =>
       Configuration.get (Configuration.merged config_file ns) k <> None)
    Configuration.keys_read.
Proof.
  unfold Configuration.merged, Configuration.keys_read.
  repeat (apply Forall_cons; [| ]); try apply Forall_nil;
    rewrite get_update_args, get_update;
    cbn [Configuration.vars Configuration.get String.eqb Ascii.eqb
           Bool.eqb];
    try destruct (Configuration.get (rev config_file) _);
    try match goal with
      | |- context [Configuration.optional ?f ?o] =>
          destruct (Configuration.optional f o)
      end;
    discriminate.
Qed.

(** X23.  A key of the merged configuration has the value given on the
    command line; failing that, the one in [config.yaml]; failing that, the
    default. *)
Theorem command_line_then_file_then_default config_file ns k :
  NoDup (map fst config_file) ->
  Configuration.get (Configuration.merged config_file ns) k =
  match Configuration.get (Configuration.args ns) k with
  | Some v => Some v
  | None =>
      match Configuration.get config_file k with
      | Some v => Some v
      | None => Configuration.get Configuration.config k
      end
  end.
Proof.
  intros Hkeys. unfold Configuration.merged.
  rewrite !get_update, (get_rev config_file k Hkeys).
  rewrite get_rev by (apply filter_keys, vars_keys).
  reflexivity.
Qed.

Lemma command_line_then_file_then_default_witness :
  Configuration.get (Configuration.merged sitting_file no_arguments)
    "scan_timeout" =
  match
    Configuration.get (Configuration.args no_arguments) "scan_timeout"
  with
  | Some v => Some v
  | None =>
      match Configuration.get sitting_file "scan_timeout" with
      | Some v => Some v
      | None => Configuration.get Configuration.config "scan_timeout"
      end
  end.
Proof.
  apply (command_line_then_file_then_default sitting_file no_arguments
           "scan_timeout").
  repeat constructor; cbn; intuition discriminate.
Defined.

(* ------------------------------------------------------------------ *)
(** ** The further properties on sample runs *)

Lemma scan_finds_first_match_witness :
  (exists desk before after,
      scan (inr [other_desk; sample_desk]) (Some sample_mac) initial_world =
      (Ok (Device desk),
       logged [Print MsgScanning; Discover; Print MsgDeskFound]
         initial_world) /\
      [other_desk; sample_desk] = before ++ desk :: after /\
      address desk = sample_mac /\
      forall other, In other before -> address other <> sample_mac) \/
  (scan (inr [other_desk; sample_desk]) (Some sample_mac) initial_world =
   (Ok NoDevice,
    logged [Print MsgScanning; Discover; Print MsgDeskNotFound]
      initial_world) /\
   forall other,
     In other [other_desk; sample_desk] -> address other <> sample_mac).
Proof.
  apply (scan_finds_first_match (inr [other_desk; sample_desk]) sample_mac
           [other_desk; sample_desk] initial_world);
    [reflexivity | discriminate].
Defined.


Lemma move_to_interrupted_witness :
  exists w',
    move_to posix (derive sample_settings) obliging_client 630
      [Notification lowest; Disconnected; Notification lowest; Tick]
      initial_world = (Ok tt, w') /\
    stop_flag w' = true.
Proof.
  destruct (move_to_interrupted posix (derive sample_settings)
              obliging_client 630 [Notification lowest] Disconnected
              [Notification lowest] initial_world lowest 0 0
              eq_refl eq_refl eq_refl eq_refl eq_refl eq_refl eq_refl
              (fun _ => eq_refl) eq_refl (or_introl eq_refl) eq_refl)
    as (w' & mid & Hrun & Hflag & _).
  exists w'. split; [apply (Hrun []) | exact Hflag].
Defined.

Lemma resend_after_convergence_witness :
  exists w1,
    sleeping posix obliging_client UUID_HEIGHT
      (_move_to (derive sample_settings) 630 UP)
      [Notification seated; Notification lowest] four_counted =
    sleeping posix obliging_client UUID_HEIGHT
      (_move_to (derive sample_settings) 630 UP) [] w1 /\
    commands (log w1) =
    [STOP_REQUEST; REFERENCE_STOP_REQUEST; move_request UP].
Proof.
  assert (Hcount : 0 <= count four_counted < 5) by (cbn; lia).
  destruct (resend_after_convergence posix (derive sample_settings)
              obliging_client 630 UP seated 630 0 [lowest] four_counted
              eq_refl Hcount eq_refl eq_refl eq_refl eq_refl)
    as (w1 & Hloop & _ & _ & Hcommands).
  exists w1. split; [apply (Hloop []) | exact Hcommands].
Defined.

Lemma subscribe_returns_unsubscribed_witness :
  stop_flag
    (snd (subscribe posix obliging_client UUID_HEIGHT print_height_data
            [Notification lowest; Signal; Tick] initial_world)) = true /\
  exists mid,
    log (snd (subscribe posix obliging_client UUID_HEIGHT print_height_data
                [Notification lowest; Signal; Tick] initial_world)) =
    log initial_world ++
    StartNotify UUID_HEIGHT :: mid ++ [StopNotify UUID_HEIGHT].
Proof.
  destruct (subscribe_returns_unsubscribed posix (derive sample_settings)
              obliging_client 630 UP UUID_HEIGHT
              [Notification lowest; Signal; Tick] initial_world eq_refl)
    as [Hmonitor _].
  apply Hmonitor. reflexivity.
Defined.

Lemma script_requests_witness :
  exists rest,
    log (snd (main posix (derive sample_settings) obliging_client None
                (inr [other_desk; sample_desk]) None
                [Notification seated; Tick] initial_world)) =
    log initial_world ++ rest /\
    Forall (script_request posix) rest.
Proof.
  apply (script_requests posix (derive sample_settings) obliging_client None
           (inr [other_desk; sample_desk]) None [Notification seated; Tick]
           initial_world).
  reflexivity.
Defined.

Lemma monitor_never_writes_witness :
  exists rest,
    log (snd (operate posix (derive monitor_settings) obliging_client
                [Notification seated; Signal; Tick] initial_world)) =
    log initial_world ++ rest /\
    Forall monitor_request rest.
Proof.
  apply (monitor_never_writes posix (derive monitor_settings) obliging_client
           [Notification seated; Signal; Tick] initial_world);
    reflexivity.
Defined.

Lemma disconnect_once_after_connect_witness :
  exists rest,
    log (snd (main posix (derive sample_settings) obliging_client None
                (inr [other_desk; sample_desk]) None
                [Notification seated; Tick] initial_world)) =
    log initial_world ++ rest /\
    (~ In Disconnect rest \/
     exists before after,
       rest = before ++ Disconnect :: after /\
       In Connect before /\
       ~ In Disconnect before /\ ~ In Disconnect after).
Proof.
  apply (disconnect_once_after_connect posix (derive sample_settings)
           obliging_client None (inr [other_desk; sample_desk]) None
           [Notification seated; Tick] initial_world);
    reflexivity.
Defined.

Lemma connected_run_disconnects_witness :
  In Disconnect
    (log (snd (main posix (derive sample_settings) obliging_client None
                 (inr [other_desk; sample_desk]) None
                 [Notification lowest; Signal; Tick] initial_world))).
Proof.
  apply (connected_run_disconnects posix (derive sample_settings)
           obliging_client None (inr [other_desk; sample_desk]) None
           [Notification lowest; Signal; Tick] initial_world).
  - left. reflexivity.
  - reflexivity.
  - reflexivity.
  - intros history. reflexivity.
  - vm_compute. exact I.
  - reflexivity.
  - vm_compute. tauto.
Defined.

Lemma exit_status_range_witness :
  (validate sample_settings <> None /\ 1 = 2) \/
  (validate sample_settings = None /\ (1 = 0 \/ 1 = 1)).
Proof.
  apply (exit_status_range nothing_around sample_settings [] 1).
  - left. reflexivity.
  - vm_compute. reflexivity.
Defined.

Lemma scan_dump_witness :
  main posix (derive scan_settings) obliging_client None
    (inr [other_desk; sample_desk]) None [] initial_world =
  (Exit 0,
   logged [Print MsgScanning; Discover; Print (MsgFoundDevices 2);
           Print (MsgDevice "00:00:00:00:00:00");
           Print (MsgDevice sample_mac)] initial_world).
Proof.
  destruct (scan_dump posix (derive scan_settings) obliging_client None
              (inr [other_desk; sample_desk]) None [] initial_world eq_refl)
    as [Hlisted _].
  exact (Hlisted [other_desk; sample_desk] eq_refl).
Defined.

Lemma connect_failure_other_than_BleakError_witness :
  fst (script desk_around_timing_out sample_settings []) = Some 0 /\
  In (Print (MsgException TimeoutError))
    (log (snd (script desk_around_timing_out sample_settings []))) /\
  ~ In Disconnect
      (log (snd (script desk_around_timing_out sample_settings []))).
Proof.
  apply (connect_failure_other_than_BleakError desk_around_timing_out
           sample_settings [] sample_desk TimeoutError).
  - vm_compute. reflexivity.
  - reflexivity.
  - right. split; [reflexivity |].
    exists [other_desk; sample_desk]. split; reflexivity.
  - intros history. reflexivity.
  - reflexivity.
Defined.

Lemma found_desk_has_address_witness :
  mac_address (derive sample_settings) = Some (address sample_desk).
Proof.
  apply (found_desk_has_address posix (derive sample_settings) None
           (inr [other_desk; sample_desk]) initial_world sample_desk
           (logged [Print MsgScanning; Discover; Print MsgDeskFound]
              initial_world)).
  reflexivity.
Defined.
